(** * RSImgLazyLoader: a shallow embedding of [lazy_loader.py]

    The module [lazy_loader.py] defines the dataclass [LazyLoaderRefer] and
    the class [LazyLoader].  The loader keeps a dictionary from dates to file
    paths, a reference grid, a list of VRT files built by [init], and the
    list of tile indices.  The embedding below follows the methods of the
    class one by one.

    Modelling decisions.
    - Python integers are [Z]; [//] is [Z.div] (both round towards minus
      infinity) and raises [ZeroDivisionError] on a zero divisor.
    - Python floats (bounds, resolutions) are idealised as exact rationals
      [Q]; [int(x)] is truncation towards zero.
    - A [dict] is an association list in insertion order: assigning to an
      existing key keeps the position of the key, a new key goes last.
    - A method is a computation over the memory [Mem] (the loader object and
      the set of files of the temporary directory) that ends normally or
      raises; the memory written before a [raise] stays written.
    - The collaborators (directory scan, [strptime], rasterio, GDAL) are the
      fields of an environment [Env]. *)

From Stdlib Require Import ZArith QArith Qround String Ascii List Lia Sorted.
From stdpp Require Import base tactics option list gmap strings.

Local Open Scope Z_scope.

(** ** Python values *)

(** [datetime.date]: compared lexicographically on (year, month, day). *)
Record date : Type := mkdate { year : Z; month : Z; day : Z }.

#[global] Instance date_eq_dec : EqDecision date.
Proof. solve_decision. Defined.

Definition date_ltb (a b : date) : bool :=
  (year a <? year b)
  || ((year a =? year b)
      && ((month a <? month b) || ((month a =? month b) && (day a <? day b)))).

Definition date_leb (a b : date) : bool := negb (date_ltb b a).

(** The exceptions the methods can raise. *)
Inductive exn : Type :=
  | RuntimeError (msg : string)
  | ValueError
  | ZeroDivisionError
  | AttributeError
  | IndexError
  | OSError
  | RasterioIOError
  | GdalError.

Inductive Result (A : Type) : Type :=
  | Ok (a : A)
  | Raise (e : exn).
Arguments Ok {A} a.
Arguments Raise {A} e.

(** *** Dictionaries in insertion order *)

Section Dict.
Context {K V : Type} `{EqDecision K}.

Definition dict : Type := list (K * V).

(** [d[k] = v] *)
Fixpoint dict_set (k : K) (v : V) (d : dict) : dict :=
  match d with
  | [] => [(k, v)]
  | (k', v') :: rest =>
      if decide (k' = k) then (k', v) :: rest
      else (k', v') :: dict_set k v rest
  end.

Definition dict_keys (d : dict) : list K := map fst d.
Definition dict_values (d : dict) : list V := map snd d.

Fixpoint dict_get (k : K) (d : dict) : option V :=
  match d with
  | [] => None
  | (k', v') :: rest => if decide (k' = k) then Some v' else dict_get k rest
  end.
End Dict.
Arguments dict : clear implicits.

(** [sorted(xs)] for dates: a stable insertion sort. *)
Fixpoint sorted_insert (x : date) (l : list date) : list date :=
  match l with
  | [] => [x]
  | y :: t => if date_ltb x y then x :: y :: t else y :: sorted_insert x t
  end.

Definition sorted (l : list date) : list date :=
  foldr sorted_insert [] l.

(** [max(l, key=key)]: the first element whose key is maximal; [ValueError]
    on the empty list. *)
Fixpoint max_from {A : Type} (key : A -> nat) (best : A) (l : list A) : A :=
  match l with
  | [] => best
  | x :: t => if (key best <? key x)%nat then max_from key x t
              else max_from key best t
  end.

Definition py_max {A : Type} (key : A -> nat) (l : list A) : Result A :=
  match l with
  | [] => Raise ValueError
  | x :: t => Ok (max_from key x t)
  end.

(** [l.count(x)] *)
Definition count (l : list string) (x : string) : nat :=
  length (filter (fun y => y = x) l).

(** [min(l)] and [max(l)] on floats: the first extremal element. *)
Definition Qltb (a b : Q) : bool := negb (Qle_bool b a).

Fixpoint min_from (best : Q) (l : list Q) : Q :=
  match l with
  | [] => best
  | x :: t => if Qltb x best then min_from x t else min_from best t
  end.

Fixpoint maxq_from (best : Q) (l : list Q) : Q :=
  match l with
  | [] => best
  | x :: t => if Qltb best x then maxq_from x t else maxq_from best t
  end.

Definition py_min (l : list Q) : Result Q :=
  match l with [] => Raise ValueError | x :: t => Ok (min_from x t) end.

Definition py_maxq (l : list Q) : Result Q :=
  match l with [] => Raise ValueError | x :: t => Ok (maxq_from x t) end.

(** [int(x)] on a float: truncation towards zero. *)
Definition py_int (x : Q) : Z := Z.quot (Qnum x) (Z.pos (Qden x)).

(** [round(x)]: to the nearest integer, halves to the even neighbour. *)
Definition py_round (x : Q) : Z :=
  let f := Qfloor x in
  let r := (x - inject_Z f)%Q in
  if Qltb r (1 # 2) then f
  else if Qltb (1 # 2) r then f + 1
  else if Z.even f then f else f + 1.

(** [range(n)] *)
Definition range (n : Z) : list Z := seqZ 0 n.

(** *** Paths and names *)

Definition endswith (s suffix : string) : bool :=
  let n := String.length s in
  let k := String.length suffix in
  (k <=? n)%nat && String.eqb (substring (n - k) k s) suffix.

(** [os.path.basename]: what follows the last slash. *)
Fixpoint basename_from (acc s : string) : string :=
  match s with
  | EmptyString => acc
  | String c t =>
      if Ascii.eqb c "/"%char then basename_from EmptyString t
      else basename_from (acc +:+ String c EmptyString) t
  end.

Definition basename (p : string) : string := basename_from EmptyString p.

(** [os.path.join(a, b)] *)
Definition path_join (a b : string) : string :=
  if String.prefix "/" b then b
  else if String.eqb a EmptyString || endswith a "/" then a +:+ b
  else a +:+ "/" +:+ b.

(** ** The data of the module *)

Definition Bounds : Type := (Q * Q * Q * Q)%type.

(** [affine.Affine(a, b, c, d, e, f)]: x = a*col + b*row + c and
    y = d*col + e*row + f. *)
Record Affine : Type := mkAffine {
  af_a : Q; af_b : Q; af_c : Q; af_d : Q; af_e : Q; af_f : Q
}.

(** [rasterio.transform.from_origin(west, north, xsize, ysize)] is
    [Affine.translation(west, north) * Affine.scale(xsize, -ysize)]. *)
Definition from_origin (west north xsize ysize : Q) : Affine :=
  mkAffine xsize 0 west 0 (- ysize) north.

(** [rasterio.windows.Window(col_off, row_off, width, height)] *)
Record Window : Type := mkWindow {
  col_off : Z; row_off : Z; win_width : Z; win_height : Z
}.

(** The dataclass [LazyLoaderRefer]. *)
Record LazyLoaderRefer : Type := mkRefer {
  crs : string;
  transform : Affine;
  shape : Z * Z;
  bounds : Bounds;
  res : Q * Q
}.

(** What an opened source dataset reports: [src.crs], [src.bounds],
    [src.res].  A coordinate reference system is represented by its
    identifier, so that [==] on them is equality of strings and
    [to_string] is the identity. *)
Record Dataset : Type := mkDataset {
  src_crs : string;
  src_bounds : Bounds;
  src_res : Q * Q
}.

(** An entry of [os.scandir]. *)
Record DirEntry : Type := mkEntry {
  entry_name : string;
  entry_path : string;
  entry_is_file : bool
}.

(** A Python [slice(start, stop, step)]. *)
Record slice : Type := mkSlice {
  slice_start : option Z; slice_stop : option Z; slice_step : option Z
}.

(** The array read from one dataset: bands, rows, columns. *)
Definition ndarray : Type := list (list (list Z)).

(** The fields of a [LazyLoader] object, as [__init__] declares them. *)
Record LazyLoader : Type := mkLoader {
  limit : Z * Z;
  _reference : option LazyLoaderRefer;
  sig_init : bool;
  files : dict date string;
  sorted_files : list date;
  vrt_files : list string;
  blocks : list (Z * Z)
}.

(** [LazyLoader.__init__] *)
Definition __init__ (limit : Z * Z) : LazyLoader :=
  {| limit := limit;
     _reference := None;
     sig_init := false;
     files := [];
     sorted_files := [];
     vrt_files := [];
     blocks := [] |}.

(** The collaborators of the module. *)
Record Env : Type := mkEnv {
  (** [os.scandir(path)]; [None] when the directory cannot be read *)
  scandir : string -> option (list DirEntry);
  (** [datetime.datetime.strptime(name, format).date()]; [None] when the
      name does not match the format *)
  strptime : string -> string -> option date;
  (** [rasterio.open(path)] on a source file *)
  rasterio_open : string -> option Dataset;
  (** [rasterio.warp.transform_bounds(src_crs, dst_crs, *bounds)] *)
  transform_bounds : string -> string -> Bounds -> Bounds;
  (** [tempfile.gettempdir()] *)
  gettempdir : string;
  (** whether [gdal.Open(path)] followed by [gdal.Warp] to the reference
      grid goes through *)
  gdal_warp : string -> LazyLoaderRefer -> bool;
  (** [src.read(window=w)] on an opened VRT file *)
  vrt_read : string -> Window -> ndarray
}.

(** The memory a method works on: the loader object and the files that
    exist in the temporary directory. *)
Record Mem : Type := mkMem {
  self : LazyLoader;
  tmpfs : gset string
}.

(** ** Computations that may raise *)

Definition M (A : Type) : Type := Mem -> Result A * Mem.

Definition ret {A : Type} (a : A) : M A := fun m => (Ok a, m).

Definition raise {A : Type} (e : exn) : M A := fun m => (Raise e, m).

Definition bind {A B : Type} (c : M A) (k : A -> M B) : M B :=
  fun m =>
    match c m with
    | (Ok a, m') => k a m'
    | (Raise e, m') => (Raise e, m')
    end.

Notation "'let*' x := c 'in' k" := (bind c (fun x => k))
  (at level 10, x name, c at level 200, k at level 200,
   format "'[v' 'let*'  x  :=  c  'in' '/' k ']'").

(** Reading and writing the loader object. *)
Definition get_self : M LazyLoader := fun m => (Ok (self m), m).

Definition set_self (f : LazyLoader -> LazyLoader) : M unit :=
  fun m => (Ok tt, {| self := f (self m); tmpfs := tmpfs m |}).

Definition get_tmpfs : M (gset string) := fun m => (Ok (tmpfs m), m).

Definition set_tmpfs (f : gset string -> gset string) : M unit :=
  fun m => (Ok tt, {| self := self m; tmpfs := f (tmpfs m) |}).

(** Lifting a fallible call of a collaborator. *)
Definition lift_opt {A : Type} (o : option A) (e : exn) : M A :=
  match o with Some a => ret a | None => raise e end.

Definition lift_res {A : Type} (r : Result A) : M A :=
  match r with Ok a => ret a | Raise e => raise e end.

(** [for x in l: body(x)] *)
Fixpoint for_each {A : Type} (l : list A) (body : A -> M unit) : M unit :=
  match l with
  | [] => ret tt
  | x :: t => let* _ := body x in for_each t body
  end.

(** [for x in l: acc.append(f(x))], returning the list built. *)
Fixpoint collect {A B : Type} (l : list A) (f : A -> M B) : M (list B) :=
  match l with
  | [] => ret []
  | x :: t => let* y := f x in let* ys := collect t f in ret (y :: ys)
  end.

(** Assignments to the fields of [self]. *)
Definition with_reference (r : option LazyLoaderRefer) (ld : LazyLoader) :=
  {| limit := limit ld; _reference := r; sig_init := sig_init ld;
     files := files ld; sorted_files := sorted_files ld;
     vrt_files := vrt_files ld; blocks := blocks ld |}.

Definition with_sig_init (b : bool) (ld : LazyLoader) :=
  {| limit := limit ld; _reference := _reference ld; sig_init := b;
     files := files ld; sorted_files := sorted_files ld;
     vrt_files := vrt_files ld; blocks := blocks ld |}.

Definition with_files (d : dict date string) (ld : LazyLoader) :=
  {| limit := limit ld; _reference := _reference ld; sig_init := sig_init ld;
     files := d; sorted_files := sorted_files ld;
     vrt_files := vrt_files ld; blocks := blocks ld |}.

Definition with_sorted_files (l : list date) (ld : LazyLoader) :=
  {| limit := limit ld; _reference := _reference ld; sig_init := sig_init ld;
     files := files ld; sorted_files := l;
     vrt_files := vrt_files ld; blocks := blocks ld |}.

Definition with_vrt_files (l : list string) (ld : LazyLoader) :=
  {| limit := limit ld; _reference := _reference ld; sig_init := sig_init ld;
     files := files ld; sorted_files := sorted_files ld;
     vrt_files := l; blocks := blocks ld |}.

Definition with_blocks (l : list (Z * Z)) (ld : LazyLoader) :=
  {| limit := limit ld; _reference := _reference ld; sig_init := sig_init ld;
     files := files ld; sorted_files := sorted_files ld;
     vrt_files := vrt_files ld; blocks := l |}.

(** ** The methods of [LazyLoader] *)

(** [a / b] on floats *)
Definition float_div (a b : Q) : Result Q :=
  if Qeq_bool b 0 then Raise ZeroDivisionError else Ok (a / b)%Q.

(** [a // b] on integers *)
Definition floor_div (a b : Z) : Result Z :=
  if b =? 0 then Raise ZeroDivisionError else Ok (a / b).

(** [x is None] for a field that holds a dictionary object: [self.files]
    is bound to a [dict] by [__init__] and never rebound. *)
Definition is_None {K V : Type} (d : dict K V) : bool := false.

Definition addFilesFromPath (env : Env) (_path : string) (_slice : slice)
    (_format : string) : M unit :=
  let* entries := lift_opt (scandir env _path) OSError in
  let* _ := for_each entries (fun entry =>
    if entry_is_file entry && endswith (entry_name entry) ".tif" then
      let* d := lift_opt (strptime env (entry_name entry) _format) ValueError in
      set_self (fun ld => with_files (dict_set d (entry_path entry) (files ld)) ld)
    else ret tt) in
  set_self (with_sig_init false).

Definition setReference (reference : LazyLoaderRefer) : M unit :=
  set_self (with_reference (Some reference)).

(** [with rasterio.open(path) as src] *)
Definition open_source (env : Env) (path : string) : M Dataset :=
  lift_opt (rasterio_open env path) RasterioIOError.

(** [max(crs_list, key=crs_list.count)] *)
Definition mode_crs (crs_list : list string) : Result string :=
  py_max (count crs_list) crs_list.

(** The bounds of a source in the target system: transformed when the
    source is in another system, its own otherwise. *)
Definition bounds_in (env : Env) (target_crs : string) (src : Dataset)
    : Bounds :=
  if negb (String.eqb (src_crs src) target_crs)
  then transform_bounds env (src_crs src) target_crs (src_bounds src)
  else src_bounds src.

Definition b_left (b : Bounds) : Q := b.1.1.1.
Definition b_bottom (b : Bounds) : Q := b.1.1.2.
Definition b_right (b : Bounds) : Q := b.1.2.
Definition b_top (b : Bounds) : Q := b.2.

Definition getReferenceFromFiles (env : Env) : M unit :=
  let* ld := get_self in
  let paths := dict_values (files ld) in
  let* crs_list := collect paths (fun path =>
    let* src := open_source env path in ret (src_crs src)) in
  let* target_crs := lift_res (mode_crs crs_list) in
  let* target_bounds := collect paths (fun path =>
    let* src := open_source env path in
    ret (bounds_in env target_crs src)) in
  let* _ := match target_bounds with
            | [] => raise ValueError
            | _ => ret tt
            end in
  let all_lefts := map b_left target_bounds in
  let all_bottoms := map b_bottom target_bounds in
  let all_rights := map b_right target_bounds in
  let all_tops := map b_top target_bounds in
  let* target_left := lift_res (py_min all_lefts) in
  let* target_bottom := lift_res (py_min all_bottoms) in
  let* target_right := lift_res (py_maxq all_rights) in
  let* target_top := lift_res (py_maxq all_tops) in
  let* first := lift_opt (head paths) IndexError in
  let* src := open_source env first in
  let res := src_res src in
  let transform := from_origin target_left target_top res.1 res.2 in
  let* w := lift_res (float_div (target_right - target_left) res.1) in
  let width := py_int w in
  let* h := lift_res (float_div (target_top - target_bottom) res.2) in
  let height := py_int h in
  let* _ := set_self (with_sig_init false) in
  set_self (with_reference (Some
    {| crs := target_crs;
       transform := transform;
       shape := (width, height);
       bounds := (target_left, target_bottom, target_right, target_top);
       res := res |})).

(** The tile list of [init]: the two block counts and the comprehension
    [[(x, y) for x in range(x_blocks) for y in range(y_blocks)]]. *)
Definition tile_grid (x_blocks y_blocks : Z) : list (Z * Z) :=
  flat_map (fun x => map (fun y => (x, y)) (range y_blocks)) (range x_blocks).

Definition compute_blocks (shape limit : Z * Z) : Result (list (Z * Z)) :=
  let '(width, height) := shape in
  match floor_div (width + limit.1 - 1) limit.1 with
  | Raise e => Raise e
  | Ok x_blocks =>
      match floor_div (height + limit.2 - 1) limit.2 with
      | Raise e => Raise e
      | Ok y_blocks => Ok (tile_grid x_blocks y_blocks)
      end
  end.

(** [self.reference.<field>]: [AttributeError] when the reference is
    [None]. *)
Definition get_reference : M LazyLoaderRefer :=
  let* ld := get_self in lift_opt (_reference ld) AttributeError.

Definition vrt_path_of (env : Env) (path : string) : string :=
  path_join (gettempdir env) (basename path +:+ ".vrt").

(** One turn of the loop of [init] that creates the VRT datasets. *)
Definition build_vrt (env : Env) (path : string) : M unit :=
  let vrt_path := vrt_path_of env path in
  let* r := get_reference in
  if gdal_warp env path r then
    let* _ := set_tmpfs (fun fs => {[vrt_path]} ∪ fs) in
    set_self (fun ld => with_vrt_files (vrt_files ld ++ [vrt_path]) ld)
  else raise GdalError.

Definition init (env : Env) : M unit :=
  let* ld := get_self in
  match _reference ld with
  | None =>
      raise (RuntimeError "RSDataLazyLoader requires a reference before init")
  | Some _ =>
      if is_None (files ld)
      then raise (RuntimeError
                    "RSDataLazyLoader requires a list of files before init")
      else
        let* _ := set_self (fun ld =>
                    with_sorted_files (sorted (dict_keys (files ld))) ld) in
        let* _ := for_each (dict_values (files ld)) (build_vrt env) in
        let* r := get_reference in
        let* ld := get_self in
        let* bs := lift_res (compute_blocks (shape r) (limit ld)) in
        let* _ := set_self (with_blocks bs) in
        set_self (with_sig_init true)
  end.

Definition getWindow (index : Z * Z) : M Window :=
  let* ld := get_self in
  let x_start := index.1 * (limit ld).1 in
  let y_start := index.2 * (limit ld).2 in
  let* r := get_reference in
  let x_size := Z.min (limit ld).1 ((shape r).1 - x_start) in
  let y_size := Z.min (limit ld).2 ((shape r).2 - y_start) in
  ret (mkWindow x_start y_start x_size y_size).

(** [with rasterio.open(vrt_file) as src]: the file has to exist. *)
Definition open_vrt (vrt_file : string) : M unit :=
  let* fs := get_tmpfs in
  if decide (vrt_file ∈ fs) then ret tt else raise RasterioIOError.

Definition getBlock (env : Env) (index : Z * Z) : M (list ndarray) :=
  let* ld := get_self in
  if negb (sig_init ld)
  then raise (RuntimeError "RSDataLazyLoader requires init before getBlock")
  else
    collect (vrt_files ld) (fun vrt_file =>
      let* _ := open_vrt vrt_file in
      let* w := getWindow index in
      ret (vrt_read env vrt_file w)).

(** [__iter__] is a generator; running it to its end gives the arrays it
    yields, the exception that ended it (if one did), and the memory. *)
Fixpoint iter_blocks (env : Env) (bs : list (Z * Z)) (m : Mem)
    : list (list ndarray) * option exn * Mem :=
  match bs with
  | [] => ([], None, m)
  | (x, y) :: t =>
      match getBlock env (x, y) m with
      | (Ok a, m') =>
          let '(ys, e, m'') := iter_blocks env t m' in (a :: ys, e, m'')
      | (Raise e, m') => ([], Some e, m')
      end
  end.

Definition __iter__ (env : Env) (m : Mem)
    : list (list ndarray) * option exn * Mem :=
  iter_blocks env (blocks (self m)) m.

(** [__del__]: [os.remove] of every VRT file, an [OSError] is passed over. *)
Definition __del__ : M unit :=
  let* ld := get_self in
  for_each (vrt_files ld) (fun vrt_file =>
    set_tmpfs (fun fs => fs ∖ {[vrt_file]})).

(** ** Properties used in the statements *)

(** A computation that leaves the memory as it found it. *)
Definition frames {A : Type} (c : M A) : Prop := forall m, (c m).2 = m.

(** [c] is the most frequent element of [l] and, among the most frequent
    ones, the one that comes first. *)
Definition first_mode (c : string) (l : list string) : Prop :=
  exists pre post,
    l = pre ++ c :: post /\
    (forall d, d ∈ pre -> (count l d < count l c)%nat) /\
    (forall d, d ∈ l -> (count l d <= count l c)%nat).

(** The two quotients from which [getReferenceFromFiles] takes the shape. *)
Definition extent_x (r : LazyLoaderRefer) : Q :=
  ((b_right (bounds r) - b_left (bounds r)) / (res r).1)%Q.

Definition extent_y (r : LazyLoaderRefer) : Q :=
  ((b_top (bounds r) - b_bottom (bounds r)) / (res r).2)%Q.

(** The transform starts at the upper left corner of the bounds. *)
Definition origin_at_corner (r : LazyLoaderRefer) : Prop :=
  af_c (transform r) = b_left (bounds r) /\
  af_f (transform r) = b_top (bounds r).

(** The grid invariant with rounded extents. *)
Definition rounded_invariant (r : LazyLoaderRefer) : Prop :=
  shape r = (py_round (extent_x r), py_round (extent_y r)) /\
  origin_at_corner r.

(** The grid invariant with truncated extents. *)
Definition truncated_invariant (r : LazyLoaderRefer) : Prop :=
  shape r = (py_int (extent_x r), py_int (extent_y r)) /\
  origin_at_corner r.

(** The sources behind the paths of the catalogue, in its order. *)
Definition opened (env : Env) (ld : LazyLoader) (srcs : list Dataset) : Prop :=
  Forall2 (fun path src => rasterio_open env path = Some src)
          (dict_values (files ld)) srcs.

(** The paths of the catalogue by ascending date. *)
Definition paths_by_date (ld : LazyLoader) : list string :=
  omap (fun d => dict_get d (files ld)) (sorted (dict_keys (files ld))).

(** ** A directory with two rasters

    The directory [/data] lists the raster of 2 January 2020 before the one
    of 1 January 2020, and a text file. *)
Module Fixture.

Definition jan1 : date := mkdate 2020 1 1.
Definition jan2 : date := mkdate 2020 1 2.

Definition listing : list DirEntry :=
  [ mkEntry "20200102.tif" "/data/20200102.tif" true;
    mkEntry "20200101.tif" "/data/20200101.tif" true;
    mkEntry "notes.txt" "/data/notes.txt" true ].

Definition parse (name fmt : string) : option date :=
  if String.eqb name "20200101.tif" then Some jan1
  else if String.eqb name "20200102.tif" then Some jan2
  else None.

(** The raster of 2 January is in UTM zone 33N, the one of 1 January in
    geographic coordinates. *)
Definition source_jan2 : Dataset :=
  mkDataset "EPSG:32633" (0, 0, 7, 7)%Q (4, 4)%Q.

Definition source_jan1 : Dataset :=
  mkDataset "EPSG:4326" (1, 1, 5, 5)%Q (2, 2)%Q.

Definition open_raster (path : string) : option Dataset :=
  if String.eqb path "/data/20200102.tif" then Some source_jan2
  else if String.eqb path "/data/20200101.tif" then Some source_jan1
  else None.

Definition pixels (vrt_file : string) (w : Window) : ndarray :=
  if String.eqb vrt_file "/tmp/20200101.tif.vrt" then [[[1]]] else [[[2]]].

Definition env : Env :=
  {| scandir := fun p => if String.eqb p "/data" then Some listing else None;
     strptime := parse;
     rasterio_open := open_raster;
     transform_bounds := fun _ _ b => b;
     gettempdir := "/tmp";
     gdal_warp := fun _ _ => true;
     vrt_read := pixels |}.

(** The same world after the raster of 1 January has been removed. *)
Definition env_removed : Env :=
  {| scandir := scandir env;
     strptime := parse;
     rasterio_open := open_raster;
     transform_bounds := transform_bounds env;
     gettempdir := "/tmp";
     gdal_warp := fun p _ => negb (String.eqb p "/data/20200101.tif");
     vrt_read := pixels |}.

Definition whole : slice := mkSlice None None None.

Definition grid : LazyLoaderRefer :=
  {| crs := "EPSG:4326";
     transform := from_origin 0 10 1 1;
     shape := (10, 10);
     bounds := (0, 0, 10, 10)%Q;
     res := (1, 1)%Q |}.

(** [LazyLoader((4, 4))] *)
Definition fresh : Mem := mkMem (__init__ (4, 4)) ∅.

(** ... after [setReference(grid)] *)
Definition referenced : Mem := (setReference grid fresh).2.

(** ... after [addFilesFromPath("/data", whole, "%Y%m%d.tif")] *)
Definition cataloged : Mem :=
  (addFilesFromPath env "/data" whole "%Y%m%d.tif" referenced).2.

(** ... after [init()] *)
Definition ready : Mem := (init env cataloged).2.

(** ... after a second [init()] *)
Definition ready_twice : Mem := (init env ready).2.

(** The reference that [getReferenceFromFiles] derives from the two
    rasters. *)
Definition derived : LazyLoaderRefer :=
  {| crs := "EPSG:32633";
     transform := from_origin 0 7 4 4;
     shape := (1, 1);
     bounds := (0, 0, 7, 7)%Q;
     res := (4, 4)%Q |}.

End Fixture.

(** ** Further properties used in the statements *)

(** [d.update(pairs)]: the assignments [d[k] = v] in the order of the
    pairs. *)
Definition dict_update {K V : Type} `{EqDecision K}
    (d : dict K V) (pairs : list (K * V)) : dict K V :=
  foldl (fun acc kv => dict_set kv.1 kv.2 acc) d pairs.

(** The entries of a listing that [addFilesFromPath] reads. *)
Definition is_raster (entry : DirEntry) : bool :=
  entry_is_file entry && endswith (entry_name entry) ".tif".

(** The entry [entry] is filed under the date [kv.1] with the path
    [kv.2]. *)
Definition filed (env : Env) (fmt : string) (entry : DirEntry)
    (kv : date * string) : Prop :=
  strptime env (entry_name entry) fmt = Some kv.1 /\ kv.2 = entry_path entry.

(** The order of [datetime.date]. *)
Definition date_lt (a b : date) : Prop :=
  year a < year b \/
  (year a = year b /\
   (month a < month b \/ (month a = month b /\ day a < day b))).

Definition date_le (a b : date) : Prop := a = b \/ date_lt a b.

(** The pixel (i, j) lies in the window [w]. *)
Definition in_window (w : Window) (i j : Z) : Prop :=
  col_off w <= i < col_off w + win_width w /\
  row_off w <= j < row_off w + win_height w.

(** The bounds [outer] enclose the bounds [inner]. *)
Definition encloses (outer inner : Bounds) : Prop :=
  (b_left outer <= b_left inner)%Q /\
  (b_bottom outer <= b_bottom inner)%Q /\
  (b_right inner <= b_right outer)%Q /\
  (b_top inner <= b_top outer)%Q.

(** A computation that changes the memory only when it ends normally. *)
Definition atomic {A : Type} (c : M A) : Prop :=
  forall m e m', c m = (Raise e, m') -> m' = m.
(** ** Laws of the computations *)

Lemma bind_ok {A B : Type} (c : M A) (k : A -> M B) (m m' : Mem) (a : A) :
  c m = (Ok a, m') -> bind c k m = k a m'.
Proof. intros H. unfold bind. now rewrite H. Qed.

Lemma bind_raise {A B : Type} (c : M A) (k : A -> M B) (m m' : Mem) (e : exn) :
  c m = (Raise e, m') -> bind c k m = (Raise e, m').
Proof. intros H. unfold bind. now rewrite H. Qed.

Lemma frames_ret {A : Type} (a : A) : frames (ret a).
Proof. now intros m. Qed.

Lemma frames_raise {A : Type} (e : exn) : frames (@raise A e).
Proof. now intros m. Qed.

Lemma frames_bind {A B : Type} (c : M A) (k : A -> M B) :
  frames c -> (forall a, frames (k a)) -> frames (bind c k).
Proof.
  intros Hc Hk m. unfold bind.
  specialize (Hc m). destruct (c m) as [[a|e] m1]; simpl in Hc; subst m1.
  - apply Hk.
  - reflexivity.
Qed.

Lemma frames_lift_opt {A : Type} (o : option A) (e : exn) :
  frames (lift_opt o e).
Proof. destruct o; [apply frames_ret | apply frames_raise]. Qed.

Lemma frames_get_self : frames get_self.
Proof. now intros m. Qed.

Lemma frames_get_tmpfs : frames get_tmpfs.
Proof. now intros m. Qed.

Lemma frames_collect {A B : Type} (l : list A) (f : A -> M B) :
  (forall x, frames (f x)) -> frames (collect l f).
Proof.
  intros Hf. induction l as [|x t IH]; simpl.
  - apply frames_ret.
  - apply frames_bind; [apply Hf|]. intros y.
    apply frames_bind; [apply IH|]. intros ys. apply frames_ret.
Qed.

Create HintDb frame.
#[global] Hint Resolve frames_ret frames_raise frames_lift_opt
  frames_get_self frames_get_tmpfs : frame.

Lemma frames_get_reference : frames get_reference.
Proof.
  unfold get_reference. apply frames_bind; auto with frame.
Qed.

Lemma frames_getWindow (index : Z * Z) : frames (getWindow index).
Proof.
  unfold getWindow. apply frames_bind; auto with frame. intros ld.
  apply frames_bind; [apply frames_get_reference|]. auto with frame.
Qed.

Lemma frames_open_vrt (vrt_file : string) : frames (open_vrt vrt_file).
Proof.
  unfold open_vrt. apply frames_bind; auto with frame. intros fs.
  destruct (decide (vrt_file ∈ fs)); auto with frame.
Qed.

Lemma frames_getBlock (env : Env) (index : Z * Z) :
  frames (getBlock env index).
Proof.
  unfold getBlock. apply frames_bind; auto with frame. intros ld.
  destruct (negb (sig_init ld)); auto with frame.
  apply frames_collect. intros v.
  apply frames_bind; [apply frames_open_vrt|]. intros _.
  apply frames_bind; [apply frames_getWindow|]. auto with frame.
Qed.

Lemma iter_blocks_frame (env : Env) (bs : list (Z * Z)) (m : Mem) :
  (iter_blocks env bs m).2 = m.
Proof.
  induction bs as [|[x y] t IH]; simpl; [reflexivity|].
  pose proof (frames_getBlock env (x, y) m) as Hg.
  destruct (getBlock env (x, y) m) as [[a|e] m1]; simpl in Hg; subst m1.
  - destruct (iter_blocks env t m) as [[ys e] m2]; simpl in *. exact IH.
  - reflexivity.
Qed.

(** ** Reading tiles *)

(** C9: [getBlock] and the iteration leave every field of the loader
    ([limit], [_reference], [files], [sorted_files], [vrt_files], [blocks],
    [sig_init]) and the temporary directory as they were, whatever they
    return; hence a second iteration over the loader starts from the same
    memory and yields the same arrays, and ends the same way, as the
    first. *)
Theorem C9_reading_changes_nothing (env : Env) (m : Mem) (index : Z * Z) :
  (getBlock env index m).2 = m /\
  (__iter__ env m).2 = m /\
  __iter__ env (__iter__ env m).2 = __iter__ env m.
Proof.
  assert (Hit : (__iter__ env m).2 = m) by apply iter_blocks_frame.
  split; [apply frames_getBlock|]. split; [exact Hit|].
  now rewrite Hit.
Qed.

(** The iteration of an initialised loader over its tiles does yield
    arrays: the two tiles' worth of reads below are the same on both
    passes. *)
Example iterating_twice :
  (__iter__ Fixture.env Fixture.ready).1
    = ([[[[[2]]]; [[[1]]]]; [[[[2]]]; [[[1]]]]; [[[[2]]]; [[[1]]]];
        [[[[2]]]; [[[1]]]]; [[[[2]]]; [[[1]]]]; [[[[2]]]; [[[1]]]];
        [[[[2]]]; [[[1]]]]; [[[[2]]]; [[[1]]]]; [[[[2]]]; [[[1]]]]], None) /\
  (__iter__ Fixture.env (__iter__ Fixture.env Fixture.ready).2).1
    = (__iter__ Fixture.env Fixture.ready).1.
Proof. split; vm_compute; reflexivity. Qed.

(** ** The catalogue *)

(** C10: the argument [_slice] of [addFilesFromPath] is never read: two
    calls that differ in it alone return the same result and leave the same
    memory. *)
Theorem C10_slice_is_ignored (env : Env) (path fmt : string)
    (s1 s2 : slice) (m : Mem) :
  addFilesFromPath env path s1 fmt m = addFilesFromPath env path s2 fmt m.
Proof. reflexivity. Qed.

(** ** Initialisation *)

Lemma build_vrt_step (env : Env) (path : string) (m : Mem) :
  build_vrt env path m =
    match _reference (self m) with
    | None => (Raise AttributeError, m)
    | Some r =>
        if gdal_warp env path r
        then (Ok tt,
              mkMem (with_vrt_files
                       (vrt_files (self m) ++ [vrt_path_of env path]) (self m))
                    ({[vrt_path_of env path]} ∪ tmpfs m))
        else (Raise GdalError, m)
    end.
Proof.
  unfold build_vrt, get_reference, bind, get_self, lift_opt. simpl.
  destruct (_reference (self m)) as [r|]; simpl; [|reflexivity].
  destruct (gdal_warp env path r); reflexivity.
Qed.

(** The loop of [init] only appends to [vrt_files] and adds files to the
    temporary directory; when it ends normally it has appended one VRT path
    per path, in the order of the paths. *)
Lemma build_vrt_loop (env : Env) (paths : list string) (m m' : Mem)
    (out : Result unit) :
  for_each paths (build_vrt env) m = (out, m') ->
  exists built,
    self m' = with_vrt_files (vrt_files (self m) ++ built) (self m) /\
    tmpfs m' = list_to_set built ∪ tmpfs m /\
    (out = Ok tt -> built = map (vrt_path_of env) paths).
Proof.
  revert m. induction paths as [|p t IH]; intros m H; simpl in H.
  - unfold ret in H. simplify_eq. exists []. rewrite app_nil_r.
    destruct (self m'); simpl. split; [reflexivity|].
    split; [now rewrite (left_id_L ∅ (∪))|reflexivity].
  - unfold bind in H. rewrite build_vrt_step in H.
    destruct (_reference (self m)) as [r|] eqn:Er.
    + destruct (gdal_warp env p r).
      * apply IH in H as (built & Hs & Hf & Hb). simpl in Hs, Hf.
        exists (vrt_path_of env p :: built).
        split; [|split].
        -- rewrite Hs. rewrite <- app_assoc. reflexivity.
        -- rewrite Hf. simpl.
           rewrite (assoc_L (∪)), (comm_L (∪) (list_to_set built)).
           reflexivity.
        -- intros ->. simpl. now rewrite Hb.
      * simplify_eq. exists []. rewrite app_nil_r.
        destruct (self m'); simpl.
        split; [reflexivity|].
        split; [now rewrite (left_id_L ∅ (∪))|discriminate].
    + simplify_eq. exists []. rewrite app_nil_r.
      destruct (self m'); simpl.
      split; [reflexivity|].
        split; [now rewrite (left_id_L ∅ (∪))|discriminate].
Qed.

(** What a call of [init] returns and leaves behind. *)
Lemma init_outcome (env : Env) (m m' : Mem) (out : Result unit) :
  init env m = (out, m') ->
  match _reference (self m) with
  | None => (exists msg, out = Raise (RuntimeError msg)) /\ m' = m
  | Some r =>
      exists built,
        let ld1 :=
          with_vrt_files (vrt_files (self m) ++ built)
            (with_sorted_files (sorted (dict_keys (files (self m)))) (self m)) in
        tmpfs m' = list_to_set built ∪ tmpfs m /\
        ((exists e, out = Raise e /\ self m' = ld1) \/
         (exists bs,
            out = Ok tt /\
            built = map (vrt_path_of env) (dict_values (files (self m))) /\
            compute_blocks (shape r) (limit (self m)) = Ok bs /\
            self m' = with_sig_init true (with_blocks bs ld1)))
  end.
Proof.
  unfold init, bind at 1. simpl.
  destruct (_reference (self m)) as [r|] eqn:Er.
  - unfold is_None. unfold bind at 1. simpl. unfold bind at 1.
    destruct (for_each _ _ _) as [[[]|e] m1] eqn:Eloop; intros H;
      apply build_vrt_loop in Eloop as (built & Hs & Hf & Hb);
      simpl in Hs, Hf; exists built; simpl; rewrite <- Hf.
    + specialize (Hb eq_refl).
      cbv beta iota zeta delta
        [bind get_reference get_self lift_opt lift_res set_self ret raise] in H.
      simpl in H. rewrite Hs in H. simpl in H. rewrite Er in H.
      rewrite ?Hs in H. simpl in H.
      destruct (compute_blocks (shape r) (limit (self m))) as [bs|e] eqn:Ec;
        simpl in H; simplify_eq; simpl.
      * split; [reflexivity|]. right. exists bs. rewrite Hs. auto.
      * split; [reflexivity|]. left. exists e. auto.
    + simplify_eq. split; [reflexivity|]. left. exists e. auto.
  - unfold raise. intros H; simplify_eq. split; [eauto|reflexivity].
Qed.

(** C4 (as amended): a call of [init] that raises leaves [sig_init] as it
    was before the call; so a loader that was not ready before the failing
    call is not ready after it. *)
Theorem C4_failed_init_keeps_sig_init (env : Env) (m m' : Mem) (e : exn) :
  init env m = (Raise e, m') ->
  sig_init (self m') = sig_init (self m) /\
  (sig_init (self m) = false -> sig_init (self m') = false).
Proof.
  intros H. apply init_outcome in H.
  assert (Heq : sig_init (self m') = sig_init (self m)).
  { destruct (_reference (self m)) as [r|].
    - destruct H as (built & _ & [(e' & _ & Hs) | (bs & Hout & _)]).
      + rewrite Hs. reflexivity.
      + discriminate Hout.
    - destruct H as [_ ->]. reflexivity. }
  split; [exact Heq|]. intros Hf. now rewrite Heq.
Qed.

Lemma C4_failed_init_keeps_sig_init_witness :
  (init Fixture.env_removed Fixture.cataloged).1 = Raise GdalError /\
  sig_init (self (init Fixture.env_removed Fixture.cataloged).2) = false.
Proof.
  split; [vm_compute; reflexivity|].
  apply (C4_failed_init_keeps_sig_init Fixture.env_removed Fixture.cataloged
           (init Fixture.env_removed Fixture.cataloged).2 GdalError).
  - vm_compute. reflexivity.
  - vm_compute. reflexivity.
Defined.

(** C4 (as stated) fails: the loader [Fixture.ready] has been initialised;
    the raster of 1 January is then removed and [init] is called again.  The
    call raises when it reaches that raster, and the loader is still flagged
    as ready. *)
Lemma C4_failed_reinit_stays_ready :
  init Fixture.env Fixture.cataloged = (Ok tt, Fixture.ready) /\
  sig_init (self Fixture.ready) = true /\
  (init Fixture.env_removed Fixture.ready).1 = Raise GdalError /\
  sig_init (self (init Fixture.env_removed Fixture.ready).2) = true.
Proof.
  do 3 (split; [vm_compute; reflexivity|]). vm_compute. reflexivity.
Qed.

(** ** Resolving the reference *)

(** [max] with a key returns the first element on which the key is
    largest. *)
Lemma max_from_first {A : Type} (key : A -> nat) (l : list A) (b : A) :
  exists pre post,
    b :: l = pre ++ max_from key b l :: post /\
    (forall d, d ∈ pre -> (key d < key (max_from key b l))%nat) /\
    (forall d, d ∈ b :: l -> (key d <= key (max_from key b l))%nat).
Proof.
  revert b. induction l as [|x t IH]; intros b; simpl.
  - exists [], []. split; [reflexivity|]. split.
    + intros d Hd. inversion Hd.
    + intros d Hd. apply list_elem_of_singleton in Hd. subst. lia.
  - destruct (Nat.ltb_spec (key b) (key x)) as [Hlt|Hge].
    + destruct (IH x) as (pre & post & Heq & Hpre & Hall).
      exists (b :: pre), post. split; [simpl; now rewrite Heq|].
      assert (Hx : (key x <= key (max_from key x t))%nat)
        by (apply Hall; left).
      split.
      * intros d Hd. apply elem_of_cons in Hd as [->|Hd]; [lia|auto].
      * intros d Hd. apply elem_of_cons in Hd as [->|Hd]; [lia|auto].
    + destruct (IH b) as (pre & post & Heq & Hpre & Hall).
      assert (Hb : (key b <= key (max_from key b t))%nat)
        by (apply Hall; left).
      destruct pre as [|b' pre']; simpl in Heq.
      * injection Heq as Hbest Ht. exists [], (x :: post).
        split; [simpl; now rewrite <- Hbest, Ht|]. split.
        -- intros d Hd. inversion Hd.
        -- intros d Hd. apply elem_of_cons in Hd as [->|Hd]; [lia|].
           apply elem_of_cons in Hd as [->|Hd]; [lia|].
           apply Hall. now right.
      * injection Heq as <- Ht. exists (b :: x :: pre'), post.
        split; [simpl; do 2 f_equal; exact Ht|].
        assert (Hlt : (key b < key (max_from key b t))%nat)
          by (apply Hpre; left).
        split.
        -- intros d Hd. apply elem_of_cons in Hd as [->|Hd]; [lia|].
           apply elem_of_cons in Hd as [->|Hd]; [lia|].
           apply Hpre. now right.
        -- intros d Hd. apply elem_of_cons in Hd as [->|Hd]; [lia|].
           apply elem_of_cons in Hd as [->|Hd]; [lia|].
           apply Hall. now right.
Qed.

Lemma mode_crs_first_mode (l : list string) (c : string) :
  mode_crs l = Ok c -> first_mode c l.
Proof.
  unfold mode_crs, py_max. destruct l as [|x t]; [discriminate|].
  intros H. injection H as <-.
  destruct (max_from_first (count (x :: t)) t x) as (pre & post & H1 & H2 & H3).
  exists pre, post. auto.
Qed.

(** Opening the sources in a loop. *)
Lemma collect_open {B : Type} (env : Env) (h : Dataset -> B)
    (paths : list string) (srcs : list Dataset) (m : Mem) :
  Forall2 (fun path src => rasterio_open env path = Some src) paths srcs ->
  collect paths (fun path => let* src := open_source env path in ret (h src)) m
    = (Ok (map h srcs), m).
Proof.
  induction 1 as [|p s paths srcs Hp _ IH]; simpl; [reflexivity|].
  rewrite (bind_ok _ _ m m (h s)).
  - rewrite (bind_ok _ _ m m (map h srcs) IH). reflexivity.
  - unfold bind, open_source, lift_opt. rewrite Hp. reflexivity.
Qed.

(** [int] of a non-negative float is its floor. *)
Lemma py_int_floor (x : Q) : (0 <= x)%Q -> py_int x = Qfloor x.
Proof.
  destruct x as [n d]. unfold Qle, py_int, Qfloor. simpl. intros H.
  apply Z.quot_div_nonneg; lia.
Qed.

(** [getReferenceFromFiles] on a catalogue whose sources can all be opened
    and whose first source has a non-zero resolution: the reference it
    stores, spelled out. *)
Lemma getReferenceFromFiles_ok (env : Env) (m : Mem) (srcs : list Dataset)
    (s0 : Dataset) :
  opened env (self m) srcs ->
  head srcs = Some s0 ->
  Qeq_bool (src_res s0).1 0 = false ->
  Qeq_bool (src_res s0).2 0 = false ->
  exists c l b r t,
    mode_crs (map src_crs srcs) = Ok c /\
    py_min (map b_left (map (bounds_in env c) srcs)) = Ok l /\
    py_min (map b_bottom (map (bounds_in env c) srcs)) = Ok b /\
    py_maxq (map b_right (map (bounds_in env c) srcs)) = Ok r /\
    py_maxq (map b_top (map (bounds_in env c) srcs)) = Ok t /\
    getReferenceFromFiles env m =
      (Ok tt,
       mkMem (with_reference (Some
                {| crs := c;
                   transform := from_origin l t (src_res s0).1 (src_res s0).2;
                   shape := (py_int ((r - l) / (src_res s0).1),
                             py_int ((t - b) / (src_res s0).2));
                   bounds := (l, b, r, t);
                   res := src_res s0 |})
                (with_sig_init false (self m)))
             (tmpfs m)).
Proof.
  unfold opened. intros Ho Hh Hx Hy.
  destruct srcs as [|s srcs']; [discriminate|].
  simpl in Hh. injection Hh as ->.
  inversion Ho as [|p ? paths' ? Hp Hrest Epaths]; subst.
  eexists _, _, _, _, _.
  do 5 (split; [reflexivity|]).
  unfold getReferenceFromFiles.
  rewrite (bind_ok get_self _ m m (self m) eq_refl). cbv zeta.
  rewrite <- Epaths.
  erewrite bind_ok; [|apply collect_open; constructor; eassumption].
  erewrite bind_ok; [|reflexivity].
  erewrite bind_ok; [|apply collect_open; constructor; eassumption].
  erewrite bind_ok; [|reflexivity].
  do 4 (erewrite bind_ok; [|reflexivity]).
  erewrite bind_ok; [|reflexivity].
  erewrite bind_ok; [|unfold open_source; rewrite Hp; reflexivity].
  erewrite bind_ok; [|unfold float_div; rewrite Hx; reflexivity].
  erewrite bind_ok; [|unfold float_div; rewrite Hy; reflexivity].
  reflexivity.
Qed.

Lemma Qeq_bool_false (x : Q) : ~ (x == 0)%Q -> Qeq_bool x 0 = false.
Proof.
  intros Hx. destruct (Qeq_bool x 0) eqn:E; [|reflexivity].
  apply Qeq_bool_iff in E. contradiction.
Qed.

(** C7: when the catalogue is not empty (its sources can be opened, the
    first one has a non-zero resolution), [getReferenceFromFiles] ends
    normally and the projection of the reference it stores is the most
    frequent projection of the sources, the first such in the order of the
    catalogue when several are as frequent.  On [A, A, B] this is [A]; on
    the tie [A, B] it is [A]. *)
Theorem C7_target_crs_is_first_mode (env : Env) (m : Mem)
    (srcs : list Dataset) (s0 : Dataset) :
  opened env (self m) srcs ->
  head srcs = Some s0 ->
  ~ ((src_res s0).1 == 0)%Q ->
  ~ ((src_res s0).2 == 0)%Q ->
  (exists m' r,
     getReferenceFromFiles env m = (Ok tt, m') /\
     _reference (self m') = Some r /\
     first_mode (crs r) (map src_crs srcs)) /\
  mode_crs ["A"; "A"; "B"] = Ok "A" /\
  mode_crs ["A"; "B"] = Ok "A".
Proof.
  intros Ho Hh Hx%Qeq_bool_false Hy%Qeq_bool_false.
  split; [|split; reflexivity].
  destruct (getReferenceFromFiles_ok env m srcs s0 Ho Hh Hx Hy)
    as (c & l & b & r & t & Hc & _ & _ & _ & _ & Hrun).
  eexists _, _. split; [exact Hrun|]. split; [reflexivity|].
  simpl. now apply mode_crs_first_mode.
Qed.

Lemma C7_target_crs_is_first_mode_witness :
  exists m' r,
    getReferenceFromFiles Fixture.env Fixture.cataloged = (Ok tt, m') /\
    _reference (self m') = Some r /\
    first_mode (crs r) ["EPSG:32633"; "EPSG:4326"].
Proof.
  apply (C7_target_crs_is_first_mode Fixture.env Fixture.cataloged
           [Fixture.source_jan2; Fixture.source_jan1] Fixture.source_jan2).
  - unfold opened. vm_compute. repeat constructor.
  - reflexivity.
  - vm_compute. discriminate.
  - vm_compute. discriminate.
Defined.




(** ** Readiness *)

Lemma setReference_keeps_sig_init (r : LazyLoaderRefer) (m : Mem) :
  setReference r m
    = (Ok tt, mkMem (with_reference (Some r) (self m)) (tmpfs m)) /\
  sig_init (self (setReference r m).2) = sig_init (self m).
Proof. split; reflexivity. Qed.

Lemma addFilesFromPath_clears (env : Env) (path fmt : string) (s : slice)
    (m m' : Mem) :
  addFilesFromPath env path s fmt m = (Ok tt, m') ->
  sig_init (self m') = false.
Proof.
  unfold addFilesFromPath, bind.
  destruct (lift_opt _ _ m) as [[entries|e] m1]; [|discriminate].
  destruct (for_each _ _ m1) as [[[]|e] m2]; [|discriminate].
  unfold set_self. intros H. injection H as <-. reflexivity.
Qed.

Lemma init_requires_reference (env : Env) (m : Mem) :
  _reference (self m) = None ->
  init env m =
    (Raise (RuntimeError "RSDataLazyLoader requires a reference before init"),
     m).
Proof. intros H. unfold init, bind. simpl. now rewrite H. Qed.

Lemma getBlock_requires_init (env : Env) (index : Z * Z) (m : Mem) :
  sig_init (self m) = false ->
  getBlock env index m =
    (Raise (RuntimeError "RSDataLazyLoader requires init before getBlock"), m).
Proof. intros H. unfold getBlock, bind. simpl. now rewrite H. Qed.

(** A call of [init] that ends normally appends one VRT path per file of
    the catalogue to whatever [vrt_files] held before, and marks the loader
    as ready. *)
Lemma init_appends_views (env : Env) (m m' : Mem) :
  init env m = (Ok tt, m') ->
  vrt_files (self m')
    = vrt_files (self m) ++ map (vrt_path_of env) (dict_values (files (self m)))
  /\ files (self m') = files (self m)
  /\ sig_init (self m') = true.
Proof.
  intros H. apply init_outcome in H.
  destruct (_reference (self m)) as [r|].
  - destruct H as (built & _ & [(e & He & _) | (bs & _ & Hb & _ & Hs)]).
    + discriminate He.
    + rewrite Hs, Hb. auto.
  - destruct H as [[msg Hm] _]. discriminate Hm.
Qed.

(** C3, at the failing input: the loader [Fixture.ready] is ready, with the
    reference [Fixture.grid]; [setReference] replaces the reference by
    [Fixture.derived] and the loader is still flagged as ready, as is every
    loader after [setReference].  ([addFilesFromPath] and
    [getReferenceFromFiles] do clear the flag when they end normally.) *)
Theorem C3_setReference_leaves_ready :
  sig_init (self Fixture.ready) = true /\
  _reference (self Fixture.ready) = Some Fixture.grid /\
  (setReference Fixture.derived Fixture.ready).1 = Ok tt /\
  _reference (self (setReference Fixture.derived Fixture.ready).2)
    = Some Fixture.derived /\
  sig_init (self (setReference Fixture.derived Fixture.ready).2) = true /\
  (forall r m, sig_init (self (setReference r m).2) = sig_init (self m)).
Proof.
  do 5 (split; [vm_compute; reflexivity|]). reflexivity.
Qed.

(** C5, at the failing input: [init] on a loader with a reference and an
    empty catalogue ends normally and marks the loader as ready; and
    iterating over a loader that was never initialised ends normally
    without yielding anything.  ([init] without a reference and [getBlock]
    on a loader that is not ready do raise [RuntimeError].) *)
Theorem C5_init_accepts_empty_catalog :
  files (self Fixture.referenced) = [] /\
  (init Fixture.env Fixture.referenced).1 = Ok tt /\
  sig_init (self (init Fixture.env Fixture.referenced).2) = true /\
  sig_init (self Fixture.fresh) = false /\
  __iter__ Fixture.env Fixture.fresh = ([], None, Fixture.fresh).
Proof.
  do 4 (split; [vm_compute; reflexivity|]). vm_compute. reflexivity.
Qed.

(** C1, at the failing input: the directory lists the raster of 2 January
    before the one of 1 January.  After [init] the dates are sorted in
    [sorted_files], but [vrt_files] follows the order of insertion, so the
    array of 2 January comes first in what [getBlock] returns; and after a
    second [init] the stack has four slices for two files. *)
Theorem C1_getBlock_follows_insertion_order :
  sig_init (self Fixture.ready) = true /\
  sorted_files (self Fixture.ready) = [Fixture.jan1; Fixture.jan2] /\
  paths_by_date (self Fixture.ready)
    = ["/data/20200101.tif"; "/data/20200102.tif"] /\
  vrt_files (self Fixture.ready)
    = ["/tmp/20200102.tif.vrt"; "/tmp/20200101.tif.vrt"] /\
  getBlock Fixture.env (0, 0) Fixture.ready
    = (Ok [Fixture.pixels "/tmp/20200102.tif.vrt" (mkWindow 0 0 4 4);
           Fixture.pixels "/tmp/20200101.tif.vrt" (mkWindow 0 0 4 4)],
       Fixture.ready) /\
  (getBlock Fixture.env (0, 0) Fixture.ready).1
    <> Ok (map (fun p => Fixture.pixels (vrt_path_of Fixture.env p)
                           (mkWindow 0 0 4 4))
               (paths_by_date (self Fixture.ready))) /\
  sig_init (self Fixture.ready_twice) = true /\
  length (files (self Fixture.ready_twice)) = 2%nat /\
  (exists stack,
     (getBlock Fixture.env (0, 0) Fixture.ready_twice).1 = Ok stack /\
     length stack = 4%nat).
Proof.
  do 5 (split; [vm_compute; reflexivity|]).
  split; [vm_compute; discriminate|].
  do 2 (split; [vm_compute; reflexivity|]).
  eexists. split; vm_compute; reflexivity.
Qed.

(** C2, at the failing input: a second [init] right after the first one
    leaves the tiles and the files of the temporary directory as they were,
    but [vrt_files] now holds every view twice: no view of the first call
    is released, and the loader has four views for two files. *)
Theorem C2_second_init_doubles_views :
  init Fixture.env Fixture.cataloged = (Ok tt, Fixture.ready) /\
  init Fixture.env Fixture.ready = (Ok tt, Fixture.ready_twice) /\
  blocks (self Fixture.ready_twice) = blocks (self Fixture.ready) /\
  tmpfs Fixture.ready_twice = tmpfs Fixture.ready /\
  length (vrt_files (self Fixture.ready)) = 2%nat /\
  length (vrt_files (self Fixture.ready_twice)) = 4%nat /\
  vrt_files (self Fixture.ready_twice)
    = vrt_files (self Fixture.ready) ++ vrt_files (self Fixture.ready).
Proof.
  do 6 (split; [vm_compute; reflexivity|]). vm_compute. reflexivity.
Qed.

(** ** Planning the tiles *)

(** The block count of [init] is the ceiling of the quotient. *)
Lemma block_count_ceiling (a b : Z) :
  0 < b -> (a + b - 1) / b = Qceiling (inject_Z a / inject_Z b).
Proof.
  intros Hb. destruct b as [|p|p]; try lia.
  unfold Qceiling, Qfloor, Qdiv, Qmult, Qinv, Qopp, inject_Z. simpl.
  rewrite Z.mul_1_r, Pos.mul_1_l.
  pose proof (Z.div_mod (- a) (Z.pos p) ltac:(lia)) as Hdm.
  pose proof (Z.mod_pos_bound (- a) (Z.pos p) ltac:(lia)) as Hr.
  symmetry. apply Z.div_unique with (Z.pos p - 1 - (- a) mod Z.pos p).
  - left. lia.
  - rewrite Z.mul_opp_r. lia.
Qed.

Lemma block_count_pos (a b : Z) : 0 < a -> 0 < b -> 0 < (a + b - 1) / b.
Proof.
  intros Ha Hb.
  assert (1 <= (a + b - 1) / b) by (apply Z.div_le_lower_bound; lia). lia.
Qed.

Lemma lookup_map {A B : Type} (f : A -> B) (l : list A) (i : nat) :
  map f l !! i = f <$> l !! i.
Proof.
  revert i. induction l as [|x t IH]; intros [|i]; simpl; auto.
Qed.

(** The tiles of [n] columns starting at column [s]: the tile number [k]
    is in column [s + k / cy] and row [k mod cy]. *)
Lemma tile_columns_lookup (cy : Z) (n : nat) (s k : Z) :
  0 < cy ->
  0 <= k < Z.of_nat n * cy ->
  flat_map (fun x => map (fun y => (x, y)) (range cy)) (seqZ s (Z.of_nat n))
    !! Z.to_nat k
  = Some (s + k / cy, k mod cy).
Proof.
  intros Hcy. revert s k. induction n as [|n IH]; intros s k Hk; [lia|].
  rewrite seqZ_cons by lia.
  replace (Z.pred (Z.of_nat (S n))) with (Z.of_nat n) by lia.
  simpl flat_map.
  assert (Hlen : length (map (fun y => (s, y)) (range cy)) = Z.to_nat cy).
  { unfold range. now rewrite length_map, length_seqZ. }
  destruct (Z_lt_ge_dec k cy) as [Hlt|Hge].
  - rewrite lookup_app_l by (rewrite Hlen; lia).
    rewrite lookup_map. unfold range.
    rewrite lookup_seqZ_lt by lia. simpl.
    rewrite Z2Nat.id by lia.
    rewrite Z.div_small, Z.mod_small by lia.
    do 2 f_equal. lia.
  - rewrite lookup_app_r by (rewrite Hlen; lia).
    rewrite Hlen.
    replace (Z.to_nat k - Z.to_nat cy)%nat with (Z.to_nat (k - cy)) by lia.
    rewrite IH by lia.
    replace k with ((k - cy) + 1 * cy) at 3 4 by lia.
    rewrite Z.div_add, Z_mod_plus_full by lia.
    do 2 f_equal. lia.
Qed.

Lemma tile_columns_length (cy : Z) (n : nat) (s : Z) :
  length (flat_map (fun x => map (fun y => (x, y)) (range cy))
                   (seqZ s (Z.of_nat n)))
  = (n * Z.to_nat cy)%nat.
Proof.
  revert s. induction n as [|n IH]; intros s; [reflexivity|].
  rewrite seqZ_cons by lia.
  replace (Z.pred (Z.of_nat (S n))) with (Z.of_nat n) by lia.
  simpl flat_map. rewrite length_app, IH.
  unfold range. rewrite length_map, length_seqZ. simpl. reflexivity.
Qed.

Lemma tile_grid_lookup (cx cy k : Z) :
  0 < cx -> 0 < cy -> 0 <= k < cx * cy ->
  tile_grid cx cy !! Z.to_nat k = Some (k / cy, k mod cy).
Proof.
  intros Hx Hy Hk. unfold tile_grid, range at 2.
  rewrite <- (Z2Nat.id cx) by lia.
  rewrite tile_columns_lookup by (rewrite ?Z2Nat.id; lia).
  reflexivity.
Qed.

Lemma tile_grid_length (cx cy : Z) :
  0 <= cx -> 0 <= cy -> Z.of_nat (length (tile_grid cx cy)) = cx * cy.
Proof.
  intros Hx Hy. unfold tile_grid, range at 2.
  rewrite <- (Z2Nat.id cx) at 1 by lia.
  rewrite tile_columns_length. lia.
Qed.

Lemma compute_blocks_ok (width height maxW maxH : Z) :
  maxW <> 0 -> maxH <> 0 ->
  compute_blocks (width, height) (maxW, maxH)
    = Ok (tile_grid ((width + maxW - 1) / maxW) ((height + maxH - 1) / maxH)).
Proof.
  intros Hw Hh. unfold compute_blocks, floor_div. simpl.
  destruct (Z.eqb_spec maxW 0); [contradiction|].
  destruct (Z.eqb_spec maxH 0); [contradiction|]. reflexivity.
Qed.

Lemma getWindow_ok (m : Mem) (r : LazyLoaderRefer) (x y : Z) :
  _reference (self m) = Some r ->
  getWindow (x, y) m
    = (Ok (mkWindow (x * (limit (self m)).1) (y * (limit (self m)).2)
             (Z.min (limit (self m)).1 ((shape r).1 - x * (limit (self m)).1))
             (Z.min (limit (self m)).2 ((shape r).2 - y * (limit (self m)).2))),
       m).
Proof.
  intros Hr. unfold getWindow, bind, get_reference, bind, get_self, lift_opt.
  simpl. rewrite Hr. reflexivity.
Qed.



(** * Further properties of the module *)

(** ** The catalogue as a dictionary *)

Section DictFacts.
Context {K V : Type} `{EqDecision K}.
Implicit Types (d : dict K V) (k : K) (v : V).

Lemma dict_get_set_eq d k v : dict_get k (dict_set k v d) = Some v.
Proof.
  induction d as [|[k' v'] t IH]; simpl.
  - now rewrite decide_True.
  - destruct (decide (k' = k)) as [->|Hne]; simpl.
    + now rewrite decide_True.
    + now rewrite decide_False.
Qed.

Lemma dict_get_set_ne d k k' v :
  k <> k' -> dict_get k' (dict_set k v d) = dict_get k' d.
Proof.
  intros Hne. induction d as [|[k0 v0] t IH]; simpl.
  - now rewrite decide_False.
  - destruct (decide (k0 = k)) as [->|Hk]; simpl.
    + now rewrite !decide_False.
    + destruct (decide (k0 = k')); auto.
Qed.

Lemma dict_get_None d k : dict_get k d = None <-> k ∉ dict_keys d.
Proof.
  induction d as [|[k0 v0] t IH]; simpl.
  - split; [intros _; apply not_elem_of_nil | reflexivity].
  - rewrite not_elem_of_cons. destruct (decide (k0 = k)) as [->|Hk].
    + split; [discriminate | intros [? _]; congruence].
    + rewrite IH. split; [intros; split; congruence | intros [_ ?]; auto].
Qed.

(** Assigning to a key that is present keeps the keys as they are;
    assigning to a new key puts it last. *)
Lemma dict_keys_set d k v :
  dict_keys (dict_set k v d)
    = if decide (k ∈ dict_keys d) then dict_keys d else dict_keys d ++ [k].
Proof.
  induction d as [|[k0 v0] t IH]; simpl.
  - reflexivity.
  - destruct (decide (k0 = k)) as [->|Hk]; simpl.
    + rewrite decide_True by left. reflexivity.
    + rewrite IH. destruct (decide (k ∈ dict_keys t)) as [Hin|Hnin].
      * rewrite decide_True by now right. reflexivity.
      * rewrite decide_False; [reflexivity|].
        rewrite elem_of_cons. intros [?|?]; [congruence|contradiction].
Qed.

Lemma dict_keys_set_prefix d k v :
  dict_keys d `prefix_of` dict_keys (dict_set k v d).
Proof.
  rewrite dict_keys_set. destruct (decide (k ∈ dict_keys d)).
  - reflexivity.
  - now apply prefix_app_r.
Qed.

Lemma dict_keys_set_NoDup d k v :
  NoDup (dict_keys d) -> NoDup (dict_keys (dict_set k v d)).
Proof.
  intros Hnd. rewrite dict_keys_set.
  destruct (decide (k ∈ dict_keys d)) as [Hin|Hnin]; [exact Hnd|].
  apply NoDup_app. split; [exact Hnd|]. split.
  - intros x Hx Hx'. apply list_elem_of_singleton in Hx'. now subst.
  - apply NoDup_singleton.
Qed.

Lemma dict_update_snoc d (pairs : list (K * V)) (kv : K * V) :
  dict_update d (pairs ++ [kv]) = dict_set kv.1 kv.2 (dict_update d pairs).
Proof. unfold dict_update. now rewrite foldl_app. Qed.

Lemma dict_update_keys_prefix d (pairs : list (K * V)) :
  dict_keys d `prefix_of` dict_keys (dict_update d pairs).
Proof.
  induction pairs as [|kv t IH] using rev_ind; [reflexivity|].
  rewrite dict_update_snoc. etrans; [exact IH|]. apply dict_keys_set_prefix.
Qed.

Lemma dict_update_keys_NoDup d (pairs : list (K * V)) :
  NoDup (dict_keys d) -> NoDup (dict_keys (dict_update d pairs)).
Proof.
  intros Hnd. induction pairs as [|kv t IH] using rev_ind; [exact Hnd|].
  rewrite dict_update_snoc. now apply dict_keys_set_NoDup.
Qed.

(** After an update a key holds the value of the last pair that names
    it. *)
Lemma dict_update_last d (pre post : list (K * V)) k v :
  k ∉ post.*1 ->
  dict_get k (dict_update d (pre ++ (k, v) :: post)) = Some v.
Proof.
  induction post as [|[k' v'] t IH] using rev_ind; intros Hk.
  - rewrite dict_update_snoc. apply dict_get_set_eq.
  - rewrite fmap_app, not_elem_of_app in Hk. destruct Hk as [Ht Hk'].
    simpl in Hk'. rewrite not_elem_of_cons in Hk'. destruct Hk' as [Hne _].
    rewrite app_comm_cons, app_assoc, dict_update_snoc. simpl.
    rewrite dict_get_set_ne by congruence. auto.
Qed.

(** A key that no pair names keeps what it held. *)
Lemma dict_update_other d (pairs : list (K * V)) k :
  k ∉ pairs.*1 -> dict_get k (dict_update d pairs) = dict_get k d.
Proof.
  induction pairs as [|[k' v'] t IH] using rev_ind; intros Hk; [reflexivity|].
  rewrite fmap_app, not_elem_of_app in Hk. destruct Hk as [Ht Hk'].
  simpl in Hk'. rewrite not_elem_of_cons in Hk'. destruct Hk' as [Hne _].
  rewrite dict_update_snoc. simpl.
  rewrite dict_get_set_ne by congruence. auto.
Qed.

End DictFacts.

(** ** Adding files *)

Lemma with_files_same (ld : LazyLoader) : with_files (files ld) ld = ld.
Proof. now destruct ld. Qed.

(** The loop of [addFilesFromPath]: it files the rasters of the listing one
    after the other and stops at the first name that does not parse. *)
Lemma catalog_loop (env : Env) (fmt : string) (entries : list DirEntry)
    (m m' : Mem) (out : Result unit) :
  for_each entries (fun entry =>
    if entry_is_file entry && endswith (entry_name entry) ".tif" then
      let* d := lift_opt (strptime env (entry_name entry) fmt) ValueError in
      set_self (fun ld => with_files (dict_set d (entry_path entry) (files ld)) ld)
    else ret tt) m = (out, m') ->
  exists done pairs,
    Forall2 (filed env fmt) done pairs /\
    m' = mkMem (with_files (dict_update (files (self m)) pairs) (self m))
               (tmpfs m) /\
    match out with
    | Ok _ => done = List.filter is_raster entries
    | Raise e =>
        e = ValueError /\
        exists bad rest,
          List.filter is_raster entries = done ++ bad :: rest /\
          strptime env (entry_name bad) fmt = None
    end.
Proof.
  revert m. induction entries as [|entry t IH]; intros m H; simpl in H.
  - unfold ret in H. injection H as <- <-. exists [], [].
    split; [constructor|]. split; [|reflexivity].
    unfold dict_update. simpl. rewrite with_files_same. now destruct m.
  - unfold bind at 1 in H. simpl List.filter.
    destruct (is_raster entry) eqn:Hr; unfold is_raster in Hr;
      rewrite Hr in H.
    + unfold bind at 1, lift_opt in H.
      destruct (strptime env (entry_name entry) fmt) as [d|] eqn:Ed.
      * simpl in H. apply IH in H as (done & pairs & HF & -> & Hout).
        simpl. exists (entry :: done), ((d, entry_path entry) :: pairs).
        split; [constructor; [split; auto|exact HF]|].
        split; [reflexivity|].
        destruct out as [[]|e].
        -- now rewrite Hout.
        -- destruct Hout as (-> & bad & rest & -> & Hbad).
           split; [reflexivity|]. now exists bad, rest.
      * simpl in H. injection H as <- <-. exists [], [].
        split; [constructor|]. split.
        -- unfold dict_update. simpl. rewrite with_files_same.
           now destruct m.
        -- split; [reflexivity|]. now exists entry, (List.filter is_raster t).
    + simpl in H. apply IH in H as (done & pairs & HF & -> & Hout).
      now exists done, pairs.
Qed.

(** What a call of [addFilesFromPath] returns and leaves behind. *)
Lemma addFilesFromPath_outcome (env : Env) (path fmt : string) (s : slice)
    (m m' : Mem) (out : Result unit) :
  addFilesFromPath env path s fmt m = (out, m') ->
  match scandir env path with
  | None => out = Raise OSError /\ m' = m
  | Some entries =>
      exists done pairs,
        Forall2 (filed env fmt) done pairs /\
        match out with
        | Ok _ =>
            done = List.filter is_raster entries /\
            m' = mkMem (with_sig_init false
                          (with_files (dict_update (files (self m)) pairs)
                                      (self m)))
                       (tmpfs m)
        | Raise e =>
            e = ValueError /\
            (exists bad rest,
               List.filter is_raster entries = done ++ bad :: rest /\
               strptime env (entry_name bad) fmt = None) /\
            m' = mkMem (with_files (dict_update (files (self m)) pairs)
                                   (self m))
                       (tmpfs m)
        end
  end.
Proof.
  unfold addFilesFromPath. unfold bind at 1, lift_opt.
  destruct (scandir env path) as [entries|]; simpl.
  - unfold bind at 1.
    destruct (for_each _ _ m) as [[[]|e] m1] eqn:Eloop; intros H;
      apply catalog_loop in Eloop as (done & pairs & HF & -> & Hout);
      exists done, pairs; (split; [exact HF|]).
    + injection H as <- <-. auto.
    + injection H as <- <-. destruct Hout as [-> Hbad]. auto.
  - intros H. injection H as <- <-. auto.
Qed.

(** X1: [addFilesFromPath] writes to [files] and [sig_init] and to nothing
    else: the limit, the reference, [sorted_files], [vrt_files], [blocks]
    and the temporary directory are as before, however the call ends.
    [sig_init] is cleared when the call ends normally and left as it was
    when the call raises (an unreadable directory, a name that does not
    parse). *)
Theorem addFilesFromPath_frame (env : Env) (path fmt : string) (s : slice)
    (m m' : Mem) (out : Result unit) :
  addFilesFromPath env path s fmt m = (out, m') ->
  limit (self m') = limit (self m) /\
  _reference (self m') = _reference (self m) /\
  sorted_files (self m') = sorted_files (self m) /\
  vrt_files (self m') = vrt_files (self m) /\
  blocks (self m') = blocks (self m) /\
  tmpfs m' = tmpfs m /\
  sig_init (self m')
    = match out with Ok _ => false | Raise _ => sig_init (self m) end.
Proof.
  intros H. apply addFilesFromPath_outcome in H.
  destruct (scandir env path) as [entries|].
  - destruct H as (done & pairs & _ & H). destruct out as [[]|e].
    + destruct H as [_ ->]. repeat split.
    + destruct H as (_ & _ & ->). repeat split.
  - destruct H as [-> ->]. repeat split.
Qed.

Lemma filed_dates (env : Env) (fmt : string) (entries : list DirEntry)
    (pairs : list (date * string)) (d : date) :
  Forall2 (filed env fmt) entries pairs ->
  d ∈ pairs.*1 ->
  exists entry, entry ∈ entries /\ strptime env (entry_name entry) fmt = Some d.
Proof.
  induction 1 as [|entry kv entries pairs [Hd _] _ IH]; simpl; intros Hin.
  - inversion Hin.
  - apply elem_of_cons in Hin as [->|Hin].
    + exists entry. split; [left|exact Hd].
    + destruct (IH Hin) as (entry' & Hin' & Hd').
      exists entry'. split; [now right|exact Hd'].
Qed.

(** X2: after a call of [addFilesFromPath] that ends normally, a date
    parsed from the name of a raster of the directory holds the path of the
    last raster of the listing with that date (a later file overwrites an
    earlier one), and a date that no raster of the directory parses to holds
    what it held before. *)
Theorem addFilesFromPath_last_wins (env : Env) (path fmt : string)
    (s : slice) (m m' : Mem) (entries : list DirEntry) :
  addFilesFromPath env path s fmt m = (Ok tt, m') ->
  scandir env path = Some entries ->
  (forall pre entry post d,
     List.filter is_raster entries = pre ++ entry :: post ->
     strptime env (entry_name entry) fmt = Some d ->
     (forall entry', entry' ∈ post ->
        strptime env (entry_name entry') fmt <> Some d) ->
     dict_get d (files (self m')) = Some (entry_path entry)) /\
  (forall d,
     (forall entry, entry ∈ List.filter is_raster entries ->
        strptime env (entry_name entry) fmt <> Some d) ->
     dict_get d (files (self m')) = dict_get d (files (self m))).
Proof.
  intros H Hs. apply addFilesFromPath_outcome in H. rewrite Hs in H.
  destruct H as (done & pairs & HF & -> & ->). simpl. split.
  - intros pre entry post d Heq Hd Hpost. rewrite Heq in HF.
    apply Forall2_app_inv_l in HF as (ppre & prest & _ & Hrest & ->).
    apply Forall2_cons_inv_l in Hrest as ([d' p'] & ppost & [Hd' Hp'] & Hpp & ->).
    simpl in Hd', Hp'. rewrite Hd in Hd'. injection Hd' as <-. subst p'.
    apply dict_update_last. intros Hin.
    destruct (filed_dates env fmt post ppost d Hpp Hin) as (e' & He' & Hde').
    exact (Hpost e' He' Hde').
  - intros d Hnone. apply dict_update_other. intros Hin.
    destruct (filed_dates env fmt _ pairs d HF Hin) as (e' & He' & Hde').
    exact (Hnone e' He' Hde').
Qed.

Lemma addFilesFromPath_last_wins_witness :
  dict_get Fixture.jan1 (files (self Fixture.cataloged))
    = Some "/data/20200101.tif" /\
  dict_get (mkdate 1999 12 31) (files (self Fixture.cataloged)) = None.
Proof.
  destruct (addFilesFromPath_last_wins Fixture.env "/data" "%Y%m%d.tif"
              Fixture.whole Fixture.referenced Fixture.cataloged
              Fixture.listing) as [Hlast Hother].
  - vm_compute. reflexivity.
  - reflexivity.
  - split.
    + apply (Hlast [mkEntry "20200102.tif" "/data/20200102.tif" true]
                   (mkEntry "20200101.tif" "/data/20200101.tif" true) []).
      * reflexivity.
      * reflexivity.
      * intros e He. inversion He.
    + rewrite Hother; [reflexivity|].
      intros e He. vm_compute in He.
      apply elem_of_cons in He as [->|He]; [vm_compute; discriminate|].
      apply elem_of_cons in He as [->|He]; [vm_compute; discriminate|].
      inversion He.
Defined.

Lemma addFilesFromPath_files (env : Env) (path fmt : string) (s : slice)
    (m m' : Mem) (out : Result unit) :
  addFilesFromPath env path s fmt m = (out, m') ->
  exists pairs, files (self m') = dict_update (files (self m)) pairs.
Proof.
  intros H. apply addFilesFromPath_outcome in H.
  destruct (scandir env path) as [entries|].
  - destruct H as (done & pairs & _ & H). exists pairs.
    destruct out as [[]|e].
    + destruct H as [_ ->]. reflexivity.
    + destruct H as (_ & _ & ->). reflexivity.
  - destruct H as [_ ->]. now exists [].
Qed.

(** X3: [addFilesFromPath] keeps the dates of the catalogue distinct
    (however the call ends): two rasters of the same date never give two
    entries. *)
Theorem addFilesFromPath_keys_NoDup (env : Env) (path fmt : string)
    (s : slice) (m m' : Mem) (out : Result unit) :
  addFilesFromPath env path s fmt m = (out, m') ->
  NoDup (dict_keys (files (self m))) ->
  NoDup (dict_keys (files (self m'))).
Proof.
  intros H Hnd. apply addFilesFromPath_files in H as [pairs ->].
  now apply dict_update_keys_NoDup.
Qed.

Lemma addFilesFromPath_keys_NoDup_witness :
  NoDup (dict_keys (files (self Fixture.cataloged))).
Proof.
  apply (addFilesFromPath_keys_NoDup Fixture.env "/data" "%Y%m%d.tif"
           Fixture.whole Fixture.referenced Fixture.cataloged (Ok tt)).
  - vm_compute. reflexivity.
  - apply NoDup_nil_2.
Defined.

(** X4: [addFilesFromPath] leaves the dates that were in the catalogue at
    their positions, also those whose path it overwrites: the dates before
    the call are an initial segment of the dates after it, however the call
    ends.  The order of [files] is the order in which [init] builds the
    views. *)
Theorem addFilesFromPath_keeps_positions (env : Env) (path fmt : string)
    (s : slice) (m m' : Mem) (out : Result unit) :
  addFilesFromPath env path s fmt m = (out, m') ->
  dict_keys (files (self m)) `prefix_of` dict_keys (files (self m')).
Proof.
  intros H. apply addFilesFromPath_files in H as [pairs ->].
  apply dict_update_keys_prefix.
Qed.

Lemma addFilesFromPath_keeps_positions_witness :
  dict_keys (files (self Fixture.cataloged))
    `prefix_of`
  dict_keys (files (self (addFilesFromPath Fixture.env "/data" Fixture.whole
                            "%Y%m%d.tif" Fixture.cataloged).2)).
Proof.
  apply (addFilesFromPath_keeps_positions Fixture.env "/data" "%Y%m%d.tif"
           Fixture.whole Fixture.cataloged _ (Ok tt)).
  vm_compute. reflexivity.
Defined.

Lemma addFilesFromPath_frame_witness :
  vrt_files (self (addFilesFromPath Fixture.env "/data" Fixture.whole
                     "%Y%m%d.tif" Fixture.ready).2)
    = vrt_files (self Fixture.ready) /\
  sig_init (self (addFilesFromPath Fixture.env "/data" Fixture.whole
                    "%Y%m%d.tif" Fixture.ready).2) = false.
Proof.
  destruct (addFilesFromPath_frame Fixture.env "/data" "%Y%m%d.tif"
              Fixture.whole Fixture.ready
              (addFilesFromPath Fixture.env "/data" Fixture.whole
                 "%Y%m%d.tif" Fixture.ready).2 (Ok tt))
    as (_ & _ & _ & Hv & _ & _ & Hs).
  - vm_compute. reflexivity.
  - split; [exact Hv|exact Hs].
Defined.

(** ** Sorting the dates *)

Lemma date_ltb_lt (a b : date) : date_ltb a b = true <-> date_lt a b.
Proof.
  unfold date_ltb, date_lt.
  rewrite !orb_true_iff, !andb_true_iff, !orb_true_iff, !andb_true_iff.
  rewrite !Z.ltb_lt, !Z.eqb_eq. reflexivity.
Qed.

Lemma date_le_trans (a b c : date) : date_le a b -> date_le b c -> date_le a c.
Proof.
  unfold date_le, date_lt. intros [->|Hab] [->|Hbc]; auto. right. lia.
Qed.

Lemma date_not_lt_le (a b : date) : date_ltb a b = false -> date_le b a.
Proof.
  intros H. unfold date_le.
  assert (Hn : ~ date_lt a b)
    by (rewrite <- date_ltb_lt; now rewrite H).
  unfold date_lt in *. destruct a as [ya ma da], b as [yb mb db]. simpl in *.
  destruct (decide (yb = ya /\ mb = ma /\ db = da)) as [(-> & -> & ->)|Hne].
  - now left.
  - right. lia.
Qed.

Lemma sorted_insert_perm (x : date) (l : list date) :
  sorted_insert x l ≡ₚ x :: l.
Proof.
  induction l as [|y t IH]; simpl; [reflexivity|].
  destruct (date_ltb x y); [reflexivity|].
  rewrite IH. apply Permutation_swap.
Qed.

Lemma sorted_perm (l : list date) : sorted l ≡ₚ l.
Proof.
  induction l as [|x t IH]; simpl; [reflexivity|].
  unfold sorted in *. simpl. rewrite sorted_insert_perm. now rewrite IH.
Qed.

Lemma sorted_insert_sorted (x : date) (l : list date) :
  StronglySorted date_le l -> StronglySorted date_le (sorted_insert x l).
Proof.
  induction 1 as [|y t Ht IH Hy]; simpl.
  - repeat constructor.
  - destruct (date_ltb x y) eqn:Exy.
    + apply date_ltb_lt in Exy.
      constructor; [now constructor|].
      constructor; [now right|].
      eapply Forall_impl; [exact Hy|]. intros z Hz.
      apply date_le_trans with y; [now right|exact Hz].
    + constructor; [exact IH|].
      rewrite sorted_insert_perm. constructor; [|exact Hy].
      now apply date_not_lt_le.
Qed.

Lemma sorted_sorted (l : list date) : StronglySorted date_le (sorted l).
Proof.
  induction l as [|x t IH]; simpl; [constructor|].
  unfold sorted in *. simpl. now apply sorted_insert_sorted.
Qed.

Lemma sorted_strict (l : list date) :
  NoDup l -> StronglySorted date_le l -> StronglySorted date_lt l.
Proof.
  intros Hnd Hs. induction Hs as [|x t Ht IH Hx]; [constructor|].
  apply NoDup_cons in Hnd as [Hx' Hnd].
  constructor; [auto|].
  apply Forall_forall. intros z Hz.
  rewrite Forall_forall in Hx. destruct (Hx z Hz) as [->|Hlt];
    [contradiction|exact Hlt].
Qed.

(** X5: after a call of [init] that ends normally, [sorted_files] holds the
    dates of the catalogue, each as often as the catalogue has it, in
    ascending order; and in strictly ascending order when the dates of the
    catalogue are distinct. *)
Theorem init_sorted_files (env : Env) (m m' : Mem) :
  init env m = (Ok tt, m') ->
  sorted_files (self m') ≡ₚ dict_keys (files (self m')) /\
  StronglySorted date_le (sorted_files (self m')) /\
  (NoDup (dict_keys (files (self m'))) ->
   StronglySorted date_lt (sorted_files (self m'))).
Proof.
  intros H. apply init_outcome in H.
  destruct (_reference (self m)) as [r|].
  - destruct H as (built & _ & [(e & He & _) | (bs & _ & _ & _ & Hs)]).
    + discriminate He.
    + rewrite Hs. simpl.
      split; [apply sorted_perm|]. split; [apply sorted_sorted|].
      intros Hnd. apply sorted_strict; [|apply sorted_sorted].
      now rewrite sorted_perm.
  - destruct H as [[msg Hm] _]. discriminate Hm.
Qed.

Lemma init_sorted_files_witness :
  sorted_files (self Fixture.ready) ≡ₚ dict_keys (files (self Fixture.ready)) /\
  StronglySorted date_le (sorted_files (self Fixture.ready)).
Proof.
  destruct (init_sorted_files Fixture.env Fixture.cataloged Fixture.ready)
    as (Hp & Hs & _).
  - vm_compute. reflexivity.
  - split; [exact Hp|exact Hs].
Defined.

(** ** Deriving the reference: failures and bounds *)

Lemma atomic_bind_frames {A B : Type} (c : M A) (k : A -> M B) :
  frames c -> (forall a, atomic (k a)) -> atomic (bind c k).
Proof.
  intros Hc Hk m e m'. unfold bind. specialize (Hc m).
  destruct (c m) as [[a|e'] m1]; simpl in Hc; subst m1.
  - apply Hk.
  - intros H. now injection H as _ <-.
Qed.

Lemma frames_lift_res {A : Type} (r : Result A) : frames (lift_res r).
Proof. destruct r; [apply frames_ret | apply frames_raise]. Qed.

Lemma frames_collect_open {B : Type} (env : Env) (h : Dataset -> B)
    (paths : list string) :
  frames (collect paths (fun path =>
            let* src := open_source env path in ret (h src))).
Proof.
  apply frames_collect. intros path.
  apply frames_bind; [apply frames_lift_opt|]. intros src. apply frames_ret.
Qed.

Lemma getReferenceFromFiles_atomic (env : Env) :
  atomic (getReferenceFromFiles env).
Proof.
  unfold getReferenceFromFiles.
  apply atomic_bind_frames; [apply frames_get_self|]. intros ld. cbv zeta.
  apply atomic_bind_frames; [apply frames_collect_open|]. intros crs_list.
  apply atomic_bind_frames; [apply frames_lift_res|]. intros target_crs.
  apply atomic_bind_frames; [apply frames_collect_open|]. intros tbs.
  apply atomic_bind_frames;
    [destruct tbs; [apply frames_raise|apply frames_ret]|]. intros _.
  do 4 (apply atomic_bind_frames; [apply frames_lift_res|]; intros ?).
  apply atomic_bind_frames; [apply frames_lift_opt|]. intros first.
  apply atomic_bind_frames; [apply frames_lift_opt|]. intros src.
  do 2 (apply atomic_bind_frames; [apply frames_lift_res|]; intros ?).
  intros m e m' H. discriminate H.
Qed.

(** The first loop of [getReferenceFromFiles] stops at a source that does
    not open. *)
Lemma collect_open_fails {B : Type} (env : Env) (h : Dataset -> B)
    (paths : list string) (m : Mem) :
  (exists path, path ∈ paths /\ rasterio_open env path = None) ->
  collect paths (fun path => let* src := open_source env path in ret (h src)) m
    = (Raise RasterioIOError, m).
Proof.
  intros (path & Hin & Hnone).
  induction paths as [|p t IH]; [inversion Hin|]. simpl.
  destruct (rasterio_open env p) as [src|] eqn:Ep.
  - rewrite (bind_ok _ _ m m (h src)).
    + apply elem_of_cons in Hin as [->|Hin]; [congruence|].
      rewrite (bind_raise _ _ m m RasterioIOError (IH Hin)). reflexivity.
    + unfold bind, open_source, lift_opt. rewrite Ep. reflexivity.
  - apply bind_raise. unfold bind, open_source, lift_opt. now rewrite Ep.
Qed.



Lemma Qltb_lt (a b : Q) : Qltb a b = true <-> (a < b)%Q.
Proof.
  unfold Qltb. rewrite negb_true_iff. split.
  - intros H. apply Qnot_le_lt. intros Hle.
    apply Qle_bool_iff in Hle. congruence.
  - intros H. destruct (Qle_bool b a) eqn:E; [|reflexivity].
    apply Qle_bool_iff in E. exfalso. now apply (Qlt_not_le a b).
Qed.

Lemma Qltb_ge (a b : Q) : Qltb a b = false <-> (b <= a)%Q.
Proof.
  unfold Qltb. rewrite negb_false_iff. apply Qle_bool_iff.
Qed.

Lemma min_from_le (l : list Q) (b : Q) :
  (min_from b l <= b)%Q /\ Forall (fun x => (min_from b l <= x)%Q) l.
Proof.
  revert b. induction l as [|x t IH]; intros b; simpl.
  - split; [apply Qle_refl|constructor].
  - destruct (Qltb x b) eqn:E.
    + apply Qltb_lt in E. destruct (IH x) as [Hx Ht].
      split; [|constructor; assumption].
      apply Qle_trans with x; [exact Hx|now apply Qlt_le_weak].
    + apply Qltb_ge in E. destruct (IH b) as [Hb Ht].
      split; [exact Hb|]. constructor; [|exact Ht].
      now apply Qle_trans with b.
Qed.

Lemma maxq_from_ge (l : list Q) (b : Q) :
  (b <= maxq_from b l)%Q /\ Forall (fun x => (x <= maxq_from b l)%Q) l.
Proof.
  revert b. induction l as [|x t IH]; intros b; simpl.
  - split; [apply Qle_refl|constructor].
  - destruct (Qltb b x) eqn:E.
    + apply Qltb_lt in E. destruct (IH x) as [Hx Ht].
      split; [|constructor; assumption].
      apply Qle_trans with x; [now apply Qlt_le_weak|exact Hx].
    + apply Qltb_ge in E. destruct (IH b) as [Hb Ht].
      split; [exact Hb|]. constructor; [|exact Ht].
      now apply Qle_trans with b.
Qed.

Lemma py_min_le (l : list Q) (v : Q) :
  py_min l = Ok v -> Forall (fun x => (v <= x)%Q) l.
Proof.
  destruct l as [|x t]; [discriminate|]. simpl. intros H. injection H as <-.
  destruct (min_from_le t x). now constructor.
Qed.

Lemma py_maxq_ge (l : list Q) (v : Q) :
  py_maxq l = Ok v -> Forall (fun x => (x <= v)%Q) l.
Proof.
  destruct l as [|x t]; [discriminate|]. simpl. intros H. injection H as <-.
  destruct (maxq_from_ge t x). now constructor.
Qed.

(** X7: the bounds of the reference that [getReferenceFromFiles] stores
    enclose the bounds of every source of the catalogue, taken in the
    target projection (transformed for a source in another projection). *)
Theorem getReferenceFromFiles_encloses (env : Env) (m : Mem)
    (srcs : list Dataset) (s0 : Dataset) :
  opened env (self m) srcs ->
  head srcs = Some s0 ->
  ~ ((src_res s0).1 == 0)%Q ->
  ~ ((src_res s0).2 == 0)%Q ->
  exists m' r,
    getReferenceFromFiles env m = (Ok tt, m') /\
    _reference (self m') = Some r /\
    forall src, src ∈ srcs ->
      encloses (bounds r) (bounds_in env (crs r) src).
Proof.
  intros Ho Hh Hx%Qeq_bool_false Hy%Qeq_bool_false.
  destruct (getReferenceFromFiles_ok env m srcs s0 Ho Hh Hx Hy)
    as (c & l & b & r & t & Hc & Hl & Hb & Hr & Ht & Hrun).
  eexists _, _. split; [exact Hrun|]. split; [reflexivity|].
  intros src Hin. simpl.
  apply py_min_le in Hl, Hb. apply py_maxq_ge in Hr, Ht.
  rewrite Forall_forall in Hl, Hb, Hr, Ht.
  assert (Hmem : forall f : Bounds -> Q,
             f (bounds_in env c src) ∈ map f (map (bounds_in env c) srcs)).
  { intros f. apply list_elem_of_In, in_map, in_map.
    now apply list_elem_of_In. }
  unfold encloses. simpl.
  repeat split; [apply Hl|apply Hb|apply Hr|apply Ht]; apply Hmem.
Qed.

Lemma getReferenceFromFiles_encloses_witness :
  exists m' r,
    getReferenceFromFiles Fixture.env Fixture.cataloged = (Ok tt, m') /\
    _reference (self m') = Some r /\
    encloses (bounds r) (bounds_in Fixture.env (crs r) Fixture.source_jan1).
Proof.
  destruct (getReferenceFromFiles_encloses Fixture.env Fixture.cataloged
              [Fixture.source_jan2; Fixture.source_jan1] Fixture.source_jan2)
    as (m' & r & H1 & H2 & H3).
  - unfold opened. vm_compute. repeat constructor.
  - reflexivity.
  - vm_compute. discriminate.
  - vm_compute. discriminate.
  - exists m', r. split; [exact H1|]. split; [exact H2|].
    apply H3. right. left.
Defined.

(** ** Reading after initialisation *)

Lemma collect_views (env : Env) (index : Z * Z) (w : Window)
    (views : list string) (m : Mem) :
  (forall v, v ∈ views -> v ∈ tmpfs m) ->
  getWindow index m = (Ok w, m) ->
  collect views (fun vrt_file =>
    let* _ := open_vrt vrt_file in
    let* w := getWindow index in
    ret (vrt_read env vrt_file w)) m
  = (Ok (map (fun v => vrt_read env v w) views), m).
Proof.
  intros Hin Hw. induction views as [|v t IH]; simpl; [reflexivity|].
  rewrite (bind_ok _ _ m m (vrt_read env v w)).
  - rewrite (bind_ok _ _ m m (map (fun v => vrt_read env v w) t)).
    + reflexivity.
    + apply IH. intros v' Hv'. apply Hin. now right.
  - rewrite (bind_ok (open_vrt v) _ m m tt).
    + rewrite (bind_ok _ _ m m w Hw). reflexivity.
    + unfold open_vrt, bind, get_tmpfs.
      rewrite decide_True by (apply Hin; left). reflexivity.
Qed.

(** [getBlock] on a ready loader whose views all exist. *)
Lemma getBlock_ok (env : Env) (index : Z * Z) (m : Mem)
    (r : LazyLoaderRefer) :
  sig_init (self m) = true ->
  _reference (self m) = Some r ->
  (forall v, v ∈ vrt_files (self m) -> v ∈ tmpfs m) ->
  exists w,
    getWindow index m = (Ok w, m) /\
    getBlock env index m
      = (Ok (map (fun v => vrt_read env v w) (vrt_files (self m))), m).
Proof.
  intros Hs Hr Hin. destruct index as [x y].
  eexists. split; [apply (getWindow_ok m r x y Hr)|].
  unfold getBlock. rewrite (bind_ok get_self _ m m (self m) eq_refl).
  rewrite Hs. simpl negb. cbv iota.
  apply collect_views; [exact Hin|]. apply (getWindow_ok m r x y Hr).
Qed.

(** After [init] the views it names exist, if those named before did. *)
Lemma init_views_exist (env : Env) (m m' : Mem) :
  init env m = (Ok tt, m') ->
  (forall v, v ∈ vrt_files (self m) -> v ∈ tmpfs m) ->
  (exists r, _reference (self m') = Some r) /\
  sig_init (self m') = true /\
  (forall v, v ∈ vrt_files (self m') -> v ∈ tmpfs m').
Proof.
  intros H Hin. apply init_outcome in H.
  destruct (_reference (self m)) as [r|] eqn:Er.
  - destruct H as (built & Hf & [(e & He & _) | (bs & _ & Hb & _ & Hs)]).
    + discriminate He.
    + rewrite Hs. simpl. split; [eauto|]. split; [reflexivity|].
      intros v Hv. rewrite Hf. apply elem_of_app in Hv as [Hv|Hv].
      * apply elem_of_union_r. auto.
      * apply elem_of_union_l. now apply elem_of_list_to_set.
  - destruct H as [[msg Hm] _]. discriminate Hm.
Qed.



Lemma iter_blocks_ok (env : Env) (bs : list (Z * Z)) (m : Mem) :
  (forall index, index ∈ bs -> exists a, getBlock env index m = (Ok a, m)) ->
  exists stacks,
    iter_blocks env bs m = (stacks, None, m) /\
    Forall2 (fun index a => getBlock env index m = (Ok a, m)) bs stacks.
Proof.
  induction bs as [|[x y] t IH]; intros H; simpl.
  - exists []. split; [reflexivity|constructor].
  - destruct (H (x, y)) as [a Ha]; [left|]. rewrite Ha.
    destruct IH as (stacks & Hit & HF).
    { intros index Hin. apply H. now right. }
    rewrite Hit. exists (a :: stacks). split; [reflexivity|].
    now constructor.
Qed.



(** X10: once [addFilesFromPath] has ended normally on an initialised
    loader, the tiles and views of the loader are still those of [init],
    but [getBlock] raises [RuntimeError] on every index and an iteration
    over a loader with at least one tile raises it before it yields
    anything; a call of [init] that ends normally makes the loader ready
    again. *)
Theorem reads_fail_after_adding_files (env : Env) (path fmt : string)
    (s : slice) (m m' : Mem) :
  addFilesFromPath env path s fmt m = (Ok tt, m') ->
  blocks (self m') = blocks (self m) /\
  vrt_files (self m') = vrt_files (self m) /\
  (forall index,
     getBlock env index m'
       = (Raise (RuntimeError
                   "RSDataLazyLoader requires init before getBlock"), m')) /\
  (blocks (self m) <> [] ->
   __iter__ env m'
     = ([], Some (RuntimeError
                    "RSDataLazyLoader requires init before getBlock"), m')) /\
  (forall m'', init env m' = (Ok tt, m'') -> sig_init (self m'') = true).
Proof.
  intros H.
  assert (Hv : vrt_files (self m') = vrt_files (self m) /\
               blocks (self m') = blocks (self m) /\
               sig_init (self m') = false).
  { apply addFilesFromPath_outcome in H.
    destruct (scandir env path) as [entries|].
    - destruct H as (done & pairs & _ & _ & ->). repeat split.
    - destruct H as [H _]. discriminate H. }
  destruct Hv as (Hv & Hb & Hs).
  split; [exact Hb|]. split; [exact Hv|].
  assert (Hg : forall index,
             getBlock env index m'
               = (Raise (RuntimeError
                    "RSDataLazyLoader requires init before getBlock"), m'))
    by (intros index; now apply getBlock_requires_init).
  split; [exact Hg|]. split.
  - intros Hne. unfold __iter__. rewrite Hb.
    destruct (blocks (self m)) as [|[x y] t]; [contradiction|].
    simpl. now rewrite Hg.
  - intros m'' Hi. now apply init_appends_views in Hi.
Qed.

Lemma reads_fail_after_adding_files_witness :
  getBlock Fixture.env (0, 0)
    (addFilesFromPath Fixture.env "/data" Fixture.whole "%Y%m%d.tif"
       Fixture.ready).2
  = (Raise (RuntimeError "RSDataLazyLoader requires init before getBlock"),
     (addFilesFromPath Fixture.env "/data" Fixture.whole "%Y%m%d.tif"
        Fixture.ready).2).
Proof.
  destruct (reads_fail_after_adding_files Fixture.env "/data" "%Y%m%d.tif"
              Fixture.whole Fixture.ready
              (addFilesFromPath Fixture.env "/data" Fixture.whole
                 "%Y%m%d.tif" Fixture.ready).2) as (_ & _ & Hg & _).
  - vm_compute. reflexivity.
  - apply Hg.
Defined.

(** ** The tiles and the grid *)

Lemma elem_of_tile_grid (cx cy x y : Z) :
  (x, y) ∈ tile_grid cx cy <-> 0 <= x < cx /\ 0 <= y < cy.
Proof.
  unfold tile_grid, range. rewrite list_elem_of_In, in_flat_map. split.
  - intros (x0 & Hx0 & Hy). apply in_map_iff in Hy as (y0 & Heq & Hy0).
    injection Heq as -> ->.
    apply list_elem_of_In, elem_of_seqZ in Hx0.
    apply list_elem_of_In, elem_of_seqZ in Hy0. lia.
  - intros [Hx Hy]. exists x. split.
    + apply list_elem_of_In, elem_of_seqZ. lia.
    + apply in_map_iff. exists y. split; [reflexivity|].
      apply list_elem_of_In, elem_of_seqZ. lia.
Qed.

(** A column index is below the block count exactly when the column of
    tiles starts inside the grid. *)
Lemma block_count_spec (size lim x : Z) :
  0 < lim -> (x < (size + lim - 1) / lim <-> x * lim < size).
Proof.
  intros Hl.
  pose proof (Z.div_mod (size + lim - 1) lim ltac:(lia)) as Hdm.
  pose proof (Z.mod_pos_bound (size + lim - 1) lim Hl) as Hr.
  split; intros H; nia.
Qed.

(** X11: for a positive limit, the windows of the planned tiles partition
    the grid: every pixel (i, j) of the grid lies in the window of the tile
    (i div maxW, j div maxH), which is one of the tiles [init] plans, and in
    the window of no other planned tile. *)
Theorem tiles_partition_grid (m : Mem) (r : LazyLoaderRefer)
    (width height maxW maxH i j : Z) :
  limit (self m) = (maxW, maxH) ->
  _reference (self m) = Some r ->
  shape r = (width, height) ->
  0 < maxW -> 0 < maxH ->
  0 <= i < width -> 0 <= j < height ->
  exists bs w,
    compute_blocks (width, height) (maxW, maxH) = Ok bs /\
    (i / maxW, j / maxH) ∈ bs /\
    getWindow (i / maxW, j / maxH) m = (Ok w, m) /\
    in_window w i j /\
    (forall x y w',
       (x, y) ∈ bs ->
       getWindow (x, y) m = (Ok w', m) ->
       in_window w' i j ->
       (x, y) = (i / maxW, j / maxH)).
Proof.
  intros Hl Hr Hs HmW HmH Hi Hj.
  pose proof (Z.div_mod i maxW ltac:(lia)) as Hdi.
  pose proof (Z.mod_pos_bound i maxW HmW) as Hri.
  pose proof (Z.div_mod j maxH ltac:(lia)) as Hdj.
  pose proof (Z.mod_pos_bound j maxH HmH) as Hrj.
  assert (Hqi : 0 <= i / maxW) by (apply Z.div_pos; lia).
  assert (Hqj : 0 <= j / maxH) by (apply Z.div_pos; lia).
  eexists _, _. split; [apply compute_blocks_ok; lia|].
  split; [|split; [|split]].
  - apply elem_of_tile_grid. rewrite !block_count_spec by lia. nia.
  - rewrite (getWindow_ok m r _ _ Hr), Hl, Hs. reflexivity.
  - unfold in_window. simpl. lia.
  - intros x y w' Hin Hw [Hc Hrow].
    rewrite (getWindow_ok m r _ _ Hr), Hl, Hs in Hw. simpl in Hw.
    injection Hw as <-. simpl in Hc, Hrow.
    f_equal.
    + apply (Z.div_unique i maxW x (i - x * maxW)); lia.
    + apply (Z.div_unique j maxH y (j - y * maxH)); lia.
Qed.

Lemma tiles_partition_grid_witness :
  exists bs w,
    compute_blocks (10, 10) (4, 4) = Ok bs /\
    (2, 1) ∈ bs /\
    getWindow (2, 1) Fixture.referenced = (Ok w, Fixture.referenced) /\
    in_window w 9 5.
Proof.
  destruct (tiles_partition_grid Fixture.referenced Fixture.grid
              10 10 4 4 9 5) as (bs & w & Hc & Hin & Hw & Hp & _);
    try reflexivity; try lia.
  exists bs, w. split; [exact Hc|]. split; [exact Hin|].
  split; [exact Hw|exact Hp].
Defined.



(** X13: with a limit that is zero along x or along y, [init] never ends
    normally; the loader keeps the tiles and the [sig_init] it had. *)
Theorem init_zero_limit (env : Env) (m m' : Mem) (out : Result unit) :
  (limit (self m)).1 = 0 \/ (limit (self m)).2 = 0 ->
  init env m = (out, m') ->
  (exists e, out = Raise e) /\
  blocks (self m') = blocks (self m) /\
  sig_init (self m') = sig_init (self m).
Proof.
  intros Hz H. apply init_outcome in H.
  destruct (_reference (self m)) as [r|].
  - destruct H as (built & _ & [(e & -> & Hs) | (bs & _ & _ & Hc & _)]).
    + rewrite Hs. split; [eauto|]. split; reflexivity.
    + exfalso. unfold compute_blocks, floor_div in Hc.
      destruct (shape r) as [w h], (limit (self m)) as [lw lh]. simpl in *.
      destruct Hz as [-> | ->]; simpl in Hc; [discriminate|].
      destruct (lw =? 0); discriminate.
  - destruct H as [[msg ->] ->]. split; [eauto|]. split; reflexivity.
Qed.

Lemma init_zero_limit_witness :
  (init Fixture.env (setReference Fixture.grid (mkMem (__init__ (0, 4)) ∅)).2).1
    = Raise ZeroDivisionError /\
  blocks (self (init Fixture.env
                  (setReference Fixture.grid (mkMem (__init__ (0, 4)) ∅)).2).2)
    = [].
Proof.
  split; [vm_compute; reflexivity|].
  destruct (init_zero_limit Fixture.env
              (setReference Fixture.grid (mkMem (__init__ (0, 4)) ∅)).2
              (init Fixture.env
                 (setReference Fixture.grid (mkMem (__init__ (0, 4)) ∅)).2).2
              (Raise ZeroDivisionError)) as (_ & Hb & _).
  - left. reflexivity.
  - vm_compute. reflexivity.
  - exact Hb.
Defined.

(** ** Discarding the loader *)

Lemma del_loop (views : list string) (m : Mem) :
  for_each views (fun vrt_file => set_tmpfs (fun fs => fs ∖ {[vrt_file]})) m
    = (Ok tt, mkMem (self m) (tmpfs m ∖ list_to_set views)).
Proof.
  revert m. induction views as [|v t IH]; intros m; simpl.
  - unfold ret. rewrite difference_empty_L. now destruct m.
  - unfold bind at 1. simpl. rewrite IH. simpl.
    now rewrite difference_difference_l_L.
Qed.

(** X14: [__del__] never raises.  It removes the files named in
    [vrt_files] from the temporary directory, those that are no longer
    there being passed over, and no other file; the loader itself is left
    as it is, with [vrt_files] and [sig_init] unchanged, so a second
    [__del__] changes nothing more, and a [getBlock] after it on a ready
    loader with at least one view raises [RasterioIOError]. *)
Theorem del_removes_views (env : Env) (m : Mem) :
  __del__ m
    = (Ok tt, mkMem (self m) (tmpfs m ∖ list_to_set (vrt_files (self m)))) /\
  (forall f, f ∈ tmpfs (__del__ m).2 <->
             f ∈ tmpfs m /\ f ∉ vrt_files (self m)) /\
  __del__ (__del__ m).2 = __del__ m /\
  (sig_init (self m) = true -> vrt_files (self m) <> [] ->
   forall index,
     getBlock env index (__del__ m).2 = (Raise RasterioIOError, (__del__ m).2)).
Proof.
  assert (Hd : forall m0, __del__ m0
             = (Ok tt, mkMem (self m0)
                         (tmpfs m0 ∖ list_to_set (vrt_files (self m0))))).
  { intros m0. unfold __del__.
    rewrite (bind_ok get_self _ m0 m0 (self m0) eq_refl). apply del_loop. }
  split; [apply Hd|]. split; [|split].
  - intros f. rewrite Hd. simpl.
    rewrite elem_of_difference, elem_of_list_to_set. reflexivity.
  - rewrite !Hd. simpl. f_equal. f_equal.
    rewrite difference_difference_l_L. f_equal.
    apply (idemp_L (∪)).
  - intros Hs Hne index. rewrite Hd. cbn [snd].
    unfold getBlock.
    erewrite bind_ok; [|reflexivity]. cbn [self]. rewrite Hs. simpl negb.
    cbv iota.
    destruct (vrt_files (self m)) as [|v t] eqn:Ev; [contradiction|].
    simpl collect. apply bind_raise. apply bind_raise.
    unfold open_vrt, bind, get_tmpfs. simpl tmpfs.
    rewrite decide_False; [reflexivity|].
    intros Hin. simpl in Hin. apply elem_of_difference in Hin as [_ Hn].
    apply Hn. apply elem_of_union_l. now apply elem_of_singleton.
Qed.

(** ** The names of the VRT files *)

Lemma basename_from_slash (acc a b : string) :
  basename_from acc (a +:+ String "/" b) = basename b.
Proof.
  revert acc. induction a as [|c t IH]; intros acc; simpl.
  - reflexivity.
  - destruct (Ascii.eqb c "/"); apply IH.
Qed.

Lemma string_length_app (a b : string) :
  String.length (a +:+ b) = (String.length a + String.length b)%nat.
Proof. induction a as [|c t IH]; simpl; [reflexivity|now rewrite IH]. Qed.

Lemma string_app_inj_r (x y s : string) : x +:+ s = y +:+ s -> x = y.
Proof.
  revert y. induction x as [|c t IH]; intros [|c' t'] H; simpl in H.
  - reflexivity.
  - apply (f_equal String.length) in H.
    rewrite !string_length_app in H. simpl in H. lia.
  - apply (f_equal String.length) in H.
    rewrite !string_length_app in H. simpl in H. lia.
  - injection H as -> H. f_equal. now apply IH.
Qed.

Lemma prefix_slash_head (c : ascii) (x y : string) :
  String.prefix "/" (String c x) = String.prefix "/" (String c y).
Proof.
  cbn [String.prefix]. destruct (ascii_dec "/" c); [|reflexivity].
  now destruct x, y.
Qed.

Lemma prefix_slash_other (c : ascii) (x : string) :
  c <> "/"%char -> String.prefix "/" (String c x) = false.
Proof.
  intros Hc. cbn [String.prefix].
  destruct (ascii_dec "/" c) as [<-|_]; [contradiction|reflexivity].
Qed.

(** A name that [basename] returns does not start with a slash. *)
Lemma basename_from_head (acc s : string) :
  String.prefix "/" acc = false ->
  String.prefix "/" (basename_from acc s) = false.
Proof.
  revert acc. induction s as [|c t IH]; intros acc Hacc;
    cbn [basename_from]; [exact Hacc|].
  destruct (Ascii.eqb_spec c "/") as [->|Hc].
  - now apply IH.
  - apply IH. destruct acc as [|a acc'].
    + now apply prefix_slash_other.
    + change (String a acc' +:+ String c EmptyString)
        with (String a (acc' +:+ String c EmptyString)).
      now rewrite (prefix_slash_head a _ acc').
Qed.

Lemma vrt_name_head (p : string) :
  String.prefix "/" (basename p +:+ ".vrt") = false.
Proof.
  pose proof (basename_from_head EmptyString p eq_refl) as H.
  fold (basename p) in H. destruct (basename p) as [|c b]; [reflexivity|].
  change (String c b +:+ ".vrt") with (String c (b +:+ ".vrt")).
  now rewrite (prefix_slash_head c _ b).
Qed.

(** X15: [init] names the VRT file of a source after the file name of the
    source alone: the directory of the source plays no role, and two
    sources get the same VRT path exactly when their file names are the
    same, so sources with different file names never share a VRT file. *)
Theorem vrt_path_by_file_name (env : Env) :
  (forall dir name,
     vrt_path_of env (dir +:+ "/" +:+ name) = vrt_path_of env name) /\
  (forall p1 p2,
     vrt_path_of env p1 = vrt_path_of env p2 <-> basename p1 = basename p2).
Proof.
  split.
  - intros dir name. unfold vrt_path_of, basename.
    change ("/" +:+ name) with (String "/" name).
    now rewrite basename_from_slash.
  - intros p1 p2. split; [|intros H; unfold vrt_path_of; now rewrite H].
    unfold vrt_path_of, path_join. rewrite !vrt_name_head.
    destruct (String.eqb (gettempdir env) EmptyString
              || endswith (gettempdir env) "/"); intros H.
    + apply (inj (String.app _)) in H. now apply string_app_inj_r in H.
    + apply (inj (String.app _)) in H.
      apply (inj (String.app _)) in H. now apply string_app_inj_r in H.
Qed.

(** ** What [init] and [getReferenceFromFiles] write *)

(** X16: [init] never touches the limit, the reference or the catalogue,
    and it never removes a view or a file of the temporary directory: the
    views named before the call are an initial segment of those named
    after it, however the call ends.  A call that ends normally has
    appended one view per entry of the catalogue, in the order of the
    catalogue (the order of insertion, not of the dates), and created
    their files. *)
Theorem init_only_adds_views (env : Env) (m m' : Mem) (out : Result unit) :
  init env m = (out, m') ->
  limit (self m') = limit (self m) /\
  _reference (self m') = _reference (self m) /\
  files (self m') = files (self m) /\
  vrt_files (self m) `prefix_of` vrt_files (self m') /\
  tmpfs m ⊆ tmpfs m' /\
  (out = Ok tt ->
   vrt_files (self m')
     = vrt_files (self m)
       ++ map (vrt_path_of env) (dict_values (files (self m))) /\
   tmpfs m'
     = list_to_set (map (vrt_path_of env) (dict_values (files (self m))))
       ∪ tmpfs m).
Proof.
  intros H. apply init_outcome in H.
  destruct (_reference (self m)) as [r|] eqn:Er.
  - destruct H as (built & Hf & [(e & -> & Hs) | (bs & -> & Hb & _ & Hs)]);
      rewrite Hs, Hf; simpl;
      (do 3 (split; [first [reflexivity|exact Er]|]));
      (split; [now apply prefix_app_r|]);
      (split; [apply union_subseteq_r|]).
    + discriminate.
    + intros _. now rewrite Hb.
  - destruct H as [[msg ->] ->].
    do 3 (split; [first [reflexivity|exact Er]|]). split; [reflexivity|].
    split; [reflexivity|discriminate].
Qed.

Lemma init_only_adds_views_witness :
  vrt_files (self Fixture.ready)
    = map (vrt_path_of Fixture.env)
          ["/data/20200102.tif"; "/data/20200101.tif"] /\
  files (self Fixture.ready) = files (self Fixture.cataloged).
Proof.
  destruct (init_only_adds_views Fixture.env Fixture.cataloged Fixture.ready
              (Ok tt)) as (_ & _ & Hfiles & _ & _ & Hok).
  - vm_compute. reflexivity.
  - destruct (Hok eq_refl) as [Hv _]. split; [exact Hv|exact Hfiles].
Defined.

(** X17: when [getReferenceFromFiles] ends normally (the catalogue is not
    empty, its sources can be opened, the first one has a non-zero
    resolution), the reference it stores has the resolution of the first
    source of the catalogue, in the order of insertion; [sig_init] is
    cleared; and the limit, the catalogue, [sorted_files], [vrt_files],
    [blocks] and the temporary directory are as before: the views and tiles
    of an earlier [init] stay in place. *)
Theorem getReferenceFromFiles_writes (env : Env) (m : Mem)
    (srcs : list Dataset) (s0 : Dataset) :
  opened env (self m) srcs ->
  head srcs = Some s0 ->
  ~ ((src_res s0).1 == 0)%Q ->
  ~ ((src_res s0).2 == 0)%Q ->
  exists m' r,
    getReferenceFromFiles env m = (Ok tt, m') /\
    _reference (self m') = Some r /\
    res r = src_res s0 /\
    sig_init (self m') = false /\
    limit (self m') = limit (self m) /\
    files (self m') = files (self m) /\
    sorted_files (self m') = sorted_files (self m) /\
    vrt_files (self m') = vrt_files (self m) /\
    blocks (self m') = blocks (self m) /\
    tmpfs m' = tmpfs m.
Proof.
  intros Ho Hh Hx%Qeq_bool_false Hy%Qeq_bool_false.
  destruct (getReferenceFromFiles_ok env m srcs s0 Ho Hh Hx Hy)
    as (c & l & b & r & t & _ & _ & _ & _ & _ & Hrun).
  eexists _, _. split; [exact Hrun|]. simpl. repeat split.
Qed.

Lemma getReferenceFromFiles_writes_witness :
  exists m' r,
    getReferenceFromFiles Fixture.env Fixture.ready = (Ok tt, m') /\
    _reference (self m') = Some r /\
    res r = (4, 4)%Q /\
    sig_init (self m') = false /\
    vrt_files (self m') = vrt_files (self Fixture.ready).
Proof.
  destruct (getReferenceFromFiles_writes Fixture.env Fixture.ready
              [Fixture.source_jan2; Fixture.source_jan1] Fixture.source_jan2)
    as (m' & r & H1 & H2 & H3 & H4 & _ & _ & _ & H5 & _).
  - unfold opened. vm_compute. repeat constructor.
  - reflexivity.
  - vm_compute. discriminate.
  - vm_compute. discriminate.
  - exists m', r. auto.
Defined.
